(** * Event store over a document collection (package [event])

    A shallow embedding of [event.go]: the envelope [rawEvent], the
    marshal/unmarshal bridge ([toBSONRaw], [buildEvent], [fromEvent]),
    validation, option handling and the five operations of
    [MongoEventStore].

    The repository calls three libraries whose code is not part of it:
    [reflect], [gopkg.in/mgo.v2/bson] and [gopkg.in/mgo.v2].  Each is
    modelled in a module of its own ([Go], [bson], [mgo]) for the fragment
    the package exercises; everything below those modules follows
    [event.go] statement by statement. *)

From stdpp Require Import gmap strings list pretty.
From Stdlib Require Import ZArith.

Set Warnings "-register-all".

Local Open Scope Z_scope.

(** ** Go values seen through [reflect] *)

Module Go.

(** Types of event payloads: scalars, the named string type
    [bson.ObjectId], structs (a field name stands for an exported, untagged
    Go field) and slices. *)
Inductive type : Type :=
| TBool
| TInt
| TString
| TObjectId
| TStruct (fields : list (string * type))
| TSlice (elem : type).

(** Values.  A slice is the sequence of its elements, so a nil slice and an
    empty one are the same value.  Integers are unbounded: the package does
    no arithmetic on them. *)
Inductive value : Type :=
| VBool (b : bool)
| VInt (z : Z)
| VString (s : string)
| VObjectId (s : string)
| VStruct (fields : list (string * value))
| VSlice (elems : list value).

(** [interface{}] as the package receives it: nil, a value passed by value,
    or a pointer to a variable of type [t].  A pointer carries the content
    of the variable it points to ([None] is the nil pointer); an operation
    that writes through it returns the new content. *)
Inductive iface : Type :=
| INil
| IVal (t : type) (v : value)
| IPtr (t : type) (cell : option value).

(** [reflect.Kind]; [ObjectId] has kind [String]. *)
Inductive Kind : Type := Bool | Int | String | Struct | Slice | Ptr.

Definition kind (t : type) : Kind :=
  match t with
  | TBool => Bool
  | TInt => Int
  | TString | TObjectId => String
  | TStruct _ => Struct
  | TSlice _ => Slice
  end.

Definition Kind_eqb (a b : Kind) : bool :=
  match a, b with
  | Bool, Bool | Int, Int | String, String | Struct, Struct
  | Slice, Slice | Ptr, Ptr => true
  | _, _ => false
  end.

(** [reflect.Zero]. *)
Fixpoint zero (t : type) : value :=
  match t with
  | TBool => VBool false
  | TInt => VInt 0
  | TString => VString ""
  | TObjectId => VObjectId ""
  | TStruct fs => VStruct (map (fun p => (p.1, zero p.2)) fs)
  | TSlice _ => VSlice []
  end.

(** [reflect.New(t).Interface()]: a pointer to a fresh zero value. *)
Definition New (t : type) : iface := IPtr t (Some (zero t)).

(** [reflect.Type] of an interface value: a payload type or a pointer to
    one.  [TypeOf(nil)] is nil. *)
Inductive rtype : Type :=
| Ty (t : type)
| PtrTo (t : type).

Definition TypeOf (i : iface) : option rtype :=
  match i with
  | INil => None
  | IVal t _ => Some (Ty t)
  | IPtr t _ => Some (PtrTo t)
  end.

Definition rKind (r : rtype) : Kind :=
  match r with
  | Ty t => kind t
  | PtrTo _ => Ptr
  end.

(** [Type.Elem]: of a pointer or a slice; it panics on the other kinds
    ([None]). *)
Definition Elem (r : rtype) : option rtype :=
  match r with
  | PtrTo t => Some (Ty t)
  | Ty (TSlice e) => Some (Ty e)
  | Ty _ => None
  end.

(** The fields of a struct value are those of its type, by name and in
    order. *)
Definition fields_match (chk : type -> value -> bool)
  : list (string * type) -> list (string * value) -> bool :=
  fix go fs vs :=
    match fs, vs with
    | [], [] => true
    | (n, ft) :: fr, (m, fv) :: vr => String.eqb n m && chk ft fv && go fr vr
    | _, _ => false
    end.

(** [v] is a value of type [t]. *)
Fixpoint has_type (t : type) (v : value) {struct t} : bool :=
  match t, v with
  | TBool, VBool _ => true
  | TInt, VInt _ => true
  | TString, VString _ => true
  | TObjectId, VObjectId _ => true
  | TStruct fs, VStruct vs => fields_match has_type fs vs
  | TSlice e, VSlice l => forallb (has_type e) l
  | _, _ => false
  end.

(** [strings.ToLower] on ASCII letters. *)
Definition lower_ascii (c : Ascii.ascii) : Ascii.ascii :=
  let n := Ascii.N_of_ascii c in
  if ((65 <=? n) && (n <=? 90))%N then Ascii.ascii_of_N (n + 32) else c.

Fixpoint ToLower (s : string) : string :=
  match s with
  | EmptyString => EmptyString
  | String.String c r => String.String (lower_ascii c) (ToLower r)
  end.

End Go.

(** ** The BSON codec of the driver *)

Module bson.
Import Go.

(** [bson.ObjectId] is a Go string; [Valid] is [len(id) == 12]. *)
Definition ObjectId : Type := string.

Definition Valid (id : ObjectId) : bool := Nat.eqb (String.length id) 12.

Definition hex_digit (n : N) : Ascii.ascii :=
  if (n <? 10)%N then Ascii.ascii_of_N (48 + n) else Ascii.ascii_of_N (87 + n).

Fixpoint Hex (id : ObjectId) : string :=
  match id with
  | EmptyString => EmptyString
  | String.String c r =>
      let n := Ascii.N_of_ascii c in
      String.String (hex_digit (n / 16)) (String.String (hex_digit (n mod 16)) (Hex r))
  end.

Definition dquote : string := String.String (Ascii.ascii_of_N 34) EmptyString.

(** [ObjectId.String]: [ObjectIdHex(%q)] of the hex form; this is what
    [%s] prints for an [ObjectId]. *)
Definition ObjectId_String (id : ObjectId) : string :=
  "ObjectIdHex(" +:+ dquote +:+ Hex id +:+ dquote +:+ ")".

(** A BSON element; a document is a sequence of named elements.  The bytes
    of the wire format are represented by the element they encode. *)
Inductive elem : Type :=
| BNull
| BBool (b : bool)
| BInt (z : Z)
| BStr (s : string)
| BOid (s : string)
| BDoc (d : list (string * elem))
| BArr (l : list elem).

(** [bson.Raw]: kind and data of one element. *)
Definition Raw : Type := elem.

(** The errors the codec reports (its panics are recovered into errors by
    [Marshal] and [Unmarshal]). *)
Inductive error : Type :=
| ErrObjectIdLength (n : nat)
| ErrDuplicatedKey (key : string)
| ErrCantMarshal
| ErrReflect
| ErrRawStruct
| ErrRawNeedsPointer
| ErrTypeError.

Inductive res (A : Type) : Type :=
| Ok (a : A)
| Err (e : error).
Arguments Ok {A} a.
Arguments Err {A} e.

(** [getStructInfo]: the key of a field is its lowercased name; the first
    field whose key was already taken is an error. *)
Fixpoint duplicated (seen : list string) (names : list string) : option string :=
  match names with
  | [] => None
  | n :: r =>
      let k := ToLower n in
      if existsb (String.eqb k) seen then Some k else duplicated (k :: seen) r
  end.

(** The fields of a struct in order, each under its key. *)
Definition add_fields (enc : value -> res elem)
  : list (string * value) -> res (list (string * elem)) :=
  fix go fs :=
    match fs with
    | [] => Ok []
    | (n, fv) :: r =>
        match enc fv with
        | Err e => Err e
        | Ok b =>
            match go r with
            | Err e => Err e
            | Ok d => Ok ((ToLower n, b) :: d)
            end
        end
    end.

(** [encoder.addStruct]: [getStructInfo] first, then the fields. *)
Definition add_struct (enc : value -> res elem) (fs : list (string * value))
  : res (list (string * elem)) :=
  match duplicated [] (map fst fs) with
  | Some k => Err (ErrDuplicatedKey k)
  | None => add_fields enc fs
  end.

(** [encoder.addSlice]: the elements in order. *)
Definition add_elems (enc : value -> res elem) : list value -> res (list elem) :=
  fix go l :=
    match l with
    | [] => Ok []
    | x :: r =>
        match enc x with
        | Err e => Err e
        | Ok b =>
            match go r with
            | Err e => Err e
            | Ok bs => Ok (b :: bs)
            end
        end
    end.

(** [encoder.addElem]: an [ObjectId] must be 12 bytes long; a struct is a
    document of its fields, a slice an array. *)
Fixpoint addElem (v : value) : res elem :=
  match v with
  | VBool b => Ok (BBool b)
  | VInt z => Ok (BInt z)
  | VString s => Ok (BStr s)
  | VObjectId s =>
      if Valid s then Ok (BOid s) else Err (ErrObjectIdLength (String.length s))
  | VStruct fs =>
      match add_struct addElem fs with
      | Err e => Err e
      | Ok d => Ok (BDoc d)
      end
  | VSlice l =>
      match add_elems addElem l with
      | Err e => Err e
      | Ok bs => Ok (BArr bs)
      end
  end.

Definition addStruct (fs : list (string * value)) : res (list (string * elem)) :=
  add_struct addElem fs.

(** [encoder.addDoc] on a value: a struct is the document of its fields, a
    slice the document of its elements under the keys 0, 1, ...; nothing
    else is a document. *)
Definition addDoc (v : value) : res (list (string * elem)) :=
  match v with
  | VStruct fs => addStruct fs
  | VSlice l =>
      match add_elems addElem l with
      | Err e => Err e
      | Ok bs => Ok (imap (fun i b => (pretty i, b)) bs)
      end
  | _ => Err ErrCantMarshal
  end.

(** [bson.Marshal]: pointers are followed to the value they point to; nil
    and the nil pointer make [reflect] fail. *)
Definition Marshal (i : iface) : res (list (string * elem)) :=
  match i with
  | INil => Err ErrReflect
  | IVal _ v => addDoc v
  | IPtr _ None => Err ErrReflect
  | IPtr _ (Some v) => addDoc v
  end.

(** Outcome of decoding one element into a variable: set ([Good]), left
    alone because the kinds do not fit ([Bad]), or aborted ([Fail]). *)
Inductive status : Type :=
| Good
| Bad
| Fail (e : error).

(** Decode into the field whose key is [key], if the struct has one. *)
Fixpoint update_field (key : string) (dec : type -> value -> value * status)
    (fts : list (string * type)) (vs : list (string * value))
  : list (string * value) * status :=
  match fts, vs with
  | (n, ft) :: fr, (m, cv) :: vr =>
      if String.eqb (ToLower n) key then
        let (v', st) := dec ft cv in ((m, v') :: vr, st)
      else
        let (vr', st) := update_field key dec fr vr in ((m, cv) :: vr', st)
  | _, _ => (vs, Good)
  end.

(** [decoder.readDocTo] on a struct that was just zeroed: each element of
    the document, in order, is decoded into the field of its key; the first
    failure aborts. *)
Definition read_fields (dec : elem -> type -> value -> value * status)
    (fts : list (string * type))
  : list (string * elem) -> list (string * value) -> list (string * value) * status :=
  fix go d vs :=
    match d with
    | [] => (vs, Good)
    | (k, x) :: r =>
        match update_field k (dec x) fts vs with
        | (vs', Fail e) => (vs', Fail e)
        | (vs', _) => go r vs'
        end
    end.

(** [decoder.readSliceDoc]: each element is decoded into a fresh zero
    value; those that do not fit are dropped. *)
Definition read_elems (dec : elem -> value * status) : list elem -> res (list value) :=
  fix go l :=
    match l with
    | [] => Ok []
    | x :: r =>
        match dec x with
        | (_, Fail e) => Err e
        | (v, Good) =>
            match go r with
            | Err e => Err e
            | Ok vs => Ok (v :: vs)
            end
        | (_, Bad) => go r
        end
    end.

(** [decoder.readElemTo]: decode element [b] into a variable of type [t]
    holding [cur]; returns the variable's new content.
    - null resets the variable to its zero value;
    - booleans and integers convert into each other, strings and object
      ids are both of kind [String];
    - an array fills a slice with the elements that decode;
    - a document decoded into a struct first fails on duplicated keys, then
      zeroes the struct and reads its fields; a document decoded into
      anything else is skipped and counts as good. *)
Fixpoint readElemTo (t : type) (cur : value) (b : elem) {struct b} : value * status :=
  match b with
  | BNull => (zero t, Good)
  | BBool x =>
      match t with
      | TBool => (VBool x, Good)
      | TInt => (VInt (if x then 1 else 0), Good)
      | _ => (cur, Bad)
      end
  | BInt z =>
      match t with
      | TInt => (VInt z, Good)
      | TBool => (VBool (negb (z =? 0)), Good)
      | _ => (cur, Bad)
      end
  | BStr s | BOid s =>
      match t with
      | TString => (VString s, Good)
      | TObjectId => (VObjectId s, Good)
      | _ => (cur, Bad)
      end
  | BArr l =>
      match t with
      | TSlice te =>
          match read_elems (fun x => readElemTo te (zero te) x) l with
          | Err e => (cur, Fail e)
          | Ok vs => (VSlice vs, Good)
          end
      | _ => (cur, Bad)
      end
  | BDoc d =>
      match t with
      | TStruct fts =>
          match duplicated [] (map fst fts) with
          | Some k => (cur, Fail (ErrDuplicatedKey k))
          | None =>
              let (vs, st) :=
                read_fields (fun x ft cv => readElemTo ft cv x) fts d
                            (map (fun p => (p.1, zero p.2)) fts) in
              (VStruct vs, st)
          end
      | _ => (cur, Good)
      end
  end.

(** [Raw.Unmarshal(out)]: [out] must be a pointer; the element is decoded
    into the variable it points to, and an element that does not fit is a
    type error.  Returns the new [out] and the error. *)
Definition Raw_Unmarshal (raw : Raw) (out : iface) : iface * option error :=
  match out with
  | IPtr t (Some cur) =>
      match readElemTo t cur raw with
      | (v, Good) => (IPtr t (Some v), None)
      | (v, Bad) => (IPtr t (Some v), Some ErrTypeError)
      | (v, Fail e) => (IPtr t (Some v), Some e)
      end
  | IPtr t None => (out, Some ErrReflect)
  | IVal t _ =>
      match kind t with
      | Struct => (out, Some ErrRawStruct)
      | _ => (out, Some ErrRawNeedsPointer)
      end
  | INil => (out, Some ErrRawNeedsPointer)
  end.

End bson.

(** ** The driver: sessions and collections *)

Module mgo.

(** Errors of the driver: its not-found sentinel, a duplicate [_id] on
    insert, and any other failure of a round trip to the server. *)
Inductive error : Type :=
| ErrNotFound
| ErrDuplicateKey
| ErrBackend (msg : string).

Definition is_ErrNotFound (e : error) : bool :=
  match e with
  | ErrNotFound => true
  | _ => false
  end.

(** A dialled session. *)
Record Session : Type := { addr : string }.

(** [mgo.Index]. *)
Record Index : Type := { Key : list string }.

Section Driver.

(** Documents as the caller's Go type [D] decodes them, with their [_id]. *)
Context {D : Type} (doc_id : D -> bson.ObjectId).

(** The server and the pool, as far as the package can observe them:
    collections by database and collection name in natural order, the
    indexes ensured, the number of sessions open, the round trips made, and
    the failures the next round trips will meet ([None]: the server
    answers; an exhausted script means it answers). *)
Record Server : Type := {
  collections : gmap (string * string) (list D);
  indexes : list (string * string * list string);
  open_sessions : nat;
  round_trips : nat;
  faults : list (option error)
}.

Definition set_collection (ns : string * string) (c : list D) (m : Server) : Server :=
  {| collections := <[ns := c]> (collections m);
     indexes := indexes m;
     open_sessions := open_sessions m;
     round_trips := round_trips m;
     faults := faults m |}.

Definition collection (ns : string * string) (m : Server) : list D :=
  default [] (collections m !! ns).

(** What the server will answer to the next round trip. *)
Definition next_fault (m : Server) : option error :=
  match faults m with
  | [] => None
  | f :: _ => f
  end.

(** One round trip: consume the next scripted failure. *)
Definition round_trip (m : Server) : option error * Server :=
  (next_fault m,
   {| collections := collections m;
      indexes := indexes m;
      open_sessions := open_sessions m;
      round_trips := S (round_trips m);
      faults := tail (faults m) |}).

(** [Session.Copy] and [Session.Close]. *)
Definition Copy (m : Server) : Server :=
  {| collections := collections m;
     indexes := indexes m;
     open_sessions := S (open_sessions m);
     round_trips := round_trips m;
     faults := faults m |}.

Definition Close (m : Server) : Server :=
  {| collections := collections m;
     indexes := indexes m;
     open_sessions := pred (open_sessions m);
     round_trips := round_trips m;
     faults := faults m |}.

(** [mgo.Dial]: a session on success, which stays open. *)
Definition Dial (address : string) (m : Server) : (option Session * option error) * Server :=
  let (f, m1) := round_trip m in
  match f with
  | Some e => ((None, Some e), m1)
  | None => ((Some {| addr := address |}, None), Copy m1)
  end.

(** [Collection.EnsureIndex]: idempotent. *)
Definition EnsureIndex (ns : string * string) (index : Index) (m : Server)
  : option error * Server :=
  let (f, m1) := round_trip m in
  match f with
  | Some e => (Some e, m1)
  | None =>
      (None,
       if existsb (fun i => bool_decide (i = (ns.1, ns.2, Key index))) (indexes m1) then m1
       else {| collections := collections m1;
               indexes := indexes m1 ++ [(ns.1, ns.2, Key index)];
               open_sessions := open_sessions m1;
               round_trips := round_trips m1;
               faults := faults m1 |})
  end.

Definition has_id (id : bson.ObjectId) (d : D) : bool := String.eqb (doc_id d) id.

(** [Collection.Insert]: [_id] is unique in a collection. *)
Definition Insert (ns : string * string) (d : D) (m : Server) : option error * Server :=
  let (f, m1) := round_trip m in
  match f with
  | Some e => (Some e, m1)
  | None =>
      if existsb (has_id (doc_id d)) (collection ns m1) then (Some ErrDuplicateKey, m1)
      else (None, set_collection ns (collection ns m1 ++ [d]) m1)
  end.

(** Replace the first document with the given [_id]. *)
Fixpoint replace_first (id : bson.ObjectId) (d : D) (c : list D) : option (list D) :=
  match c with
  | [] => None
  | x :: r =>
      if has_id id x then Some (d :: r)
      else match replace_first id d r with
           | Some r' => Some (x :: r')
           | None => None
           end
  end.

(** [Collection.Update(bson.M{"_id": id}, d)] in safe mode: the first
    match is replaced, no match is [ErrNotFound]. *)
Definition Update (ns : string * string) (id : bson.ObjectId) (d : D) (m : Server)
  : option error * Server :=
  let (f, m1) := round_trip m in
  match f with
  | Some e => (Some e, m1)
  | None =>
      match replace_first id d (collection ns m1) with
      | None => (Some ErrNotFound, m1)
      | Some c => (None, set_collection ns c m1)
      end
  end.

(** A query filter ([bson.M]) that marshals is represented by the documents
    the server matches with it; the nil filter matches all.  Whether a
    selector marshals is decided by the caller before [One] is reached. *)
Definition M : Type := option (D -> bool).

Definition matching (f : M) (c : list D) : list D :=
  match f with
  | None => c
  | Some p => List.filter p c
  end.

(** [Find(f).One(&d)]: the first match is decoded into [d]; without a
    match [d] is left alone and the call is [ErrNotFound]. *)
Definition One (ns : string * string) (f : M) (d : D) (m : Server)
  : (D * option error) * Server :=
  let (e, m1) := round_trip m in
  match e with
  | Some e => ((d, Some e), m1)
  | None =>
      match matching f (collection ns m1) with
      | [] => ((d, Some ErrNotFound), m1)
      | x :: _ => ((x, None), m1)
      end
  end.

(** [Find(f).All(&ds)]: every match, in natural order. *)
Definition All (ns : string * string) (f : M) (m : Server) : (list D * option error) * Server :=
  let (e, m1) := round_trip m in
  match e with
  | Some e => (([], Some e), m1)
  | None => ((matching f (collection ns m1), None), m1)
  end.

End Driver.

Arguments Server D : clear implicits.
Arguments M D : clear implicits.

End mgo.

(** ** Package [event] *)

Import Go.

Inductive error : Type :=
| ErrNotFound                  (* errors.New("Event not found") *)
| ErrInterfaceNotSlicePtr      (* errors.New("Argument is not a ptr to a slice") *)
| Errorf (msg : string)        (* a value made by fmt.Errorf *)
| MgoError (e : mgo.error)     (* an error of the driver *)
| BsonError (e : bson.error).  (* an error of the codec *)

(** How a call ends: it returns its [err] result, or it panics. *)
Inductive outcome : Type :=
| Returned (err : option error)
| Panicked.

Definition EventType : Type := Z.

Record rawEvent : Type := {
  Id : bson.ObjectId;
  InstanceId : bson.ObjectId;
  Type_ : EventType;
  Raw : option bson.Raw
}.

(** An [Event]: the dynamic value behind the interface and what its three
    methods return. *)
Record Event : Type := {
  self : iface;
  GetId : bson.ObjectId;
  GetInstanceId : bson.ObjectId;
  GetType : EventType
}.

Definition toBSONRaw (i : iface) : option bson.Raw * option error :=
  match bson.Marshal i with
  | bson.Err e => (None, Some (BsonError e))
  | bson.Ok b =>
      (* raw = new(bson.Raw); bson.Unmarshal(b, raw) keeps the document as it is *)
      (Some (bson.BDoc b), None)
  end.

Definition buildEvent (e : Event) : rawEvent * option error :=
  match toBSONRaw (self e) with
  | (raw, Some err) =>
      ({| Id := ""; InstanceId := ""; Type_ := 0; Raw := raw |}, Some err)
  | (raw, None) =>
      ({| Id := GetId e; InstanceId := GetInstanceId e; Type_ := GetType e; Raw := raw |},
       None)
  end.

(** [raw.Raw.Unmarshal(out)]: a nil [Raw] is a nil dereference. *)
Definition fromEvent (out : iface) (raw : rawEvent) : iface * outcome :=
  match Raw raw with
  | None => (out, Panicked)
  | Some r =>
      let (out', err) := bson.Raw_Unmarshal r out in
      (out', Returned (BsonError <$> err))
  end.

Definition validateEvent (ev : Event) : option error :=
  if negb (bson.Valid (GetId ev)) then
    Some (Errorf ("Event not valid Id = " +:+ bson.ObjectId_String (GetId ev)))
  else if negb (bson.Valid (GetInstanceId ev)) then
    Some (Errorf ("Event not valid InstanceId = " +:+ bson.ObjectId_String (GetInstanceId ev)))
  else None.

Module Options.
Record t : Type := mk {
  Address : string;
  DatabaseName : string;
  CollectionName : string
}.
End Options.

Definition Options : Type := Options.t.

(** [type Option func(opts *Options)]: the update it makes. *)
Definition Option : Type := Options -> Options.

Definition Address (address : string) : Option :=
  fun opts => Options.mk address (Options.DatabaseName opts) (Options.CollectionName opts).

Definition DatabaseName (name : string) : Option :=
  fun opts => Options.mk (Options.Address opts) name (Options.CollectionName opts).

Definition CollectionName (name : string) : Option :=
  fun opts => Options.mk (Options.Address opts) (Options.DatabaseName opts) name.

Definition newOptions (opts : list Option) : Options :=
  let o := Options.mk "localhost:27017" "event-sourcing" "event" in
  fold_left (fun (o : Options) (opt : Option) => opt o) opts o.

(** The store: both fields are pointers, nil until [Init]. *)
Record MongoEventStore : Type := {
  Session : option mgo.Session;
  options : option Options
}.

Abbreviation Mongo := (mgo.Server rawEvent).

Module MongoEventStore.

(** [session.DB(store.options.DatabaseName).C(store.options.CollectionName)]. *)
Definition C (o : Options) : string * string :=
  (Options.DatabaseName o, Options.CollectionName o).

(** [session := store.Session.Copy(); defer session.Close()] around a body:
    the deferred call runs however the body ends. *)
Definition scoped {A : Type} (body : Mongo -> A * Mongo) (m : Mongo) : A * Mongo :=
  let (r, m') := body (mgo.Copy m) in (r, mgo.Close m').

Definition Init (store : MongoEventStore) (opts : list Option) (m : Mongo)
  : (MongoEventStore * option error) * Mongo :=
  let o := newOptions opts in
  match mgo.Dial (Options.Address o) m with
  | ((s, Some err), m1) =>
      (({| Session := s; options := Some o |}, Some (MgoError err)), m1)
  | ((s, None), m1) =>
      let index := {| mgo.Key := ["instanceid"] |} in
      let (err, m2) := mgo.EnsureIndex (C o) index m1 in
      (({| Session := s; options := Some o |}, MgoError <$> err), m2)
  end.

Definition Create (store : MongoEventStore) (event : Event) (m : Mongo) : outcome * Mongo :=
  match validateEvent event with
  | Some err => (Returned (Some err), m)
  | None =>
      match Session store with
      | None => (Panicked, m)
      | Some _ =>
          scoped (fun m =>
            match buildEvent event with
            | (_, Some err) => (Returned (Some err), m)
            | (e, None) =>
                match options store with
                | None => (Panicked, m)
                | Some o =>
                    let (err, m') := mgo.Insert Id (C o) e m in
                    (Returned (MgoError <$> err), m')
                end
            end) m
      end
  end.

(** In [Update] the selector [bson.M{"_id": e.Id}] always marshals: [e.Id]
    is the [GetId] that [validateEvent] accepted. *)
Definition Update (store : MongoEventStore) (event : Event) (m : Mongo) : outcome * Mongo :=
  match validateEvent event with
  | Some err => (Returned (Some err), m)
  | None =>
      match Session store with
      | None => (Panicked, m)
      | Some _ =>
          scoped (fun m =>
            match buildEvent event with
            | (_, Some err) => (Returned (Some err), m)
            | (e, None) =>
                match options store with
                | None => (Panicked, m)
                | Some o =>
                    let (err, m') := mgo.Update Id (C o) (Id e) e m in
                    (Returned (MgoError <$> err), m')
                end
            end) m
      end
  end.

(** What the server matches with the selector [bson.M{"_id": id}]. *)
Definition matches_id (id : bson.ObjectId) : mgo.M rawEvent := Some (mgo.has_id Id id).

(** The selector [bson.M{"_id": id}] as the driver sends it: the driver
    marshals the selector before any round trip, and an [ObjectId] that is
    not 12 bytes long does not marshal. *)
Definition by_id (id : bson.ObjectId) : bson.res (mgo.M rawEvent) :=
  match bson.addElem (VObjectId id) with
  | bson.Err err => bson.Err err
  | bson.Ok _ => bson.Ok (matches_id id)
  end.

Definition Get (store : MongoEventStore) (id : bson.ObjectId) (out : iface) (m : Mongo)
  : (iface * outcome) * Mongo :=
  match Session store with
  | None => ((out, Panicked), m)
  | Some _ =>
      scoped (fun m =>
        match options store with
        | None => ((out, Panicked), m)
        | Some o =>
            let e := {| Id := ""; InstanceId := ""; Type_ := 0; Raw := None |} in
            match by_id id with
            | bson.Err err =>
                (* the selector does not marshal: [One] returns the codec's
                   error, which is not [mgo.ErrNotFound] *)
                ((out, Returned (Some (BsonError err))), m)
            | bson.Ok selector =>
                match mgo.One (C o) selector e m with
                | ((_, Some err), m') =>
                    ((out, Returned (Some (if mgo.is_ErrNotFound err then ErrNotFound
                                           else MgoError err))), m')
                | ((e, None), m') => (fromEvent out e, m')
                end
            end
        end) m
  end.

(** The guard of [list]:
    [out == nil || ot.Kind() != reflect.Ptr || ot.Elem().Kind() != reflect.Slice]. *)
Definition not_slice_ptr (out : iface) : bool :=
  match TypeOf out with
  | None => true
  | Some ot =>
      negb (Kind_eqb (rKind ot) Ptr)
      || match Elem ot with
         | Some et => negb (Kind_eqb (rKind et) Slice)
         | None => true
         end
  end.

(** One turn of the loop of [list]: a fresh element, [fromEvent] into it
    with its error dropped, and the element appended through the
    destination pointer ([reflect.Append] panics on a nil pointer). *)
Definition list_step (st : type) (cell : option value) (re : rawEvent)
  : option value * outcome :=
  let event := New st in
  match fromEvent event re with
  | (_, Panicked) => (cell, Panicked)
  | (event', Returned _) =>
      match cell, event' with
      | Some (VSlice l), IPtr _ (Some x) => (Some (VSlice (l ++ [x])), Returned None)
      | _, _ => (cell, Panicked)
      end
  end.

Fixpoint list_loop (st : type) (rawEvents : Datatypes.list rawEvent) (cell : option value)
  : option value * outcome :=
  match rawEvents with
  | [] => (cell, Returned None)
  | re :: r =>
      match list_step st cell re with
      | (cell', Returned _) => list_loop st r cell'
      | (cell', Panicked) => (cell', Panicked)
      end
  end.

Definition list (store : MongoEventStore) (out : iface) (f : mgo.M rawEvent) (m : Mongo)
  : (iface * outcome) * Mongo :=
  if not_slice_ptr out then ((out, Returned (Some ErrInterfaceNotSlicePtr)), m)
  else
    match Session store with
    | None => ((out, Panicked), m)
    | Some _ =>
        let m := mgo.Copy m in
        match options store with
        | None => ((out, Panicked), m)
        | Some o =>
            match mgo.All (C o) f m with
            | ((_, Some err), m') => ((out, Returned (Some (MgoError err))), m')
            | ((rawEvents, None), m') =>
                match out with
                | IPtr (TSlice st) cell =>
                    let (cell', r) := list_loop st rawEvents cell in
                    ((IPtr (TSlice st) cell', r), m')
                | _ => ((out, Panicked), m')
                end
            end
        end
    end.

Definition List (store : MongoEventStore) (out : iface) (m : Mongo)
  : (iface * outcome) * Mongo :=
  list store out None m.

Definition ListFiltered (store : MongoEventStore) (out : iface) (f : mgo.M rawEvent)
    (m : Mongo) : (iface * outcome) * Mongo :=
  list store out f m.

End MongoEventStore.

(** ** The fixtures of the package's tests *)

Module testing.

(** [type testEvent struct { Id, InstanceId bson.ObjectId; String string }]. *)
Definition testEvent : type :=
  TStruct [("Id", TObjectId); ("InstanceId", TObjectId); ("String", TString)].

Definition testEvent_value (id instanceId : bson.ObjectId) (s : string) : value :=
  VStruct [("Id", VObjectId id); ("InstanceId", VObjectId instanceId); ("String", VString s)].

(** [&testEvent{id, instanceId, s}] as an [Event]: the methods have pointer
    receivers and [GetType] is the constant 101. *)
Definition new_testEvent (id instanceId : bson.ObjectId) (s : string) : Event :=
  {| self := IPtr testEvent (Some (testEvent_value id instanceId s));
     GetId := id;
     GetInstanceId := instanceId;
     GetType := 101 |}.

(** A server with no collection, which answers every round trip. *)
Definition fresh_server : Mongo :=
  {| mgo.collections := ∅;
     mgo.indexes := [];
     mgo.open_sessions := 0;
     mgo.round_trips := 0;
     mgo.faults := [] |}.

Definition mongoAddress : string := "192.168.3.165:27017".

Definition test_options : Datatypes.list Option :=
  [Address mongoAddress; DatabaseName "event-sourcing-test"; CollectionName "tests"].

(** [newTestEventStore]: the store and the server after [Init]. *)
Definition newTestEventStore : (MongoEventStore * option error) * Mongo :=
  MongoEventStore.Init {| Session := None; options := None |} test_options fresh_server.

Definition store : MongoEventStore := newTestEventStore.1.1.

Definition server : Mongo := newTestEventStore.2.

Definition id1 : bson.ObjectId := "000000000001".
Definition id2 : bson.ObjectId := "000000000002".
Definition instance1 : bson.ObjectId := "instance0001".

Definition event1 : Event := new_testEvent id1 instance1 "This test 0".
Definition event2 : Event := new_testEvent id2 instance1 "This test 1".

(** The server after [Create] of [event1] and [event2]. *)
Definition server2 : Mongo :=
  (MongoEventStore.Create store event2 (MongoEventStore.Create store event1 server).2).2.

(** [event1] with its payload changed, as in [TestUpdate]. *)
Definition updated1 : Event := new_testEvent id1 instance1 "UPDATED".

(** [server2] when the next round trip is refused. *)
Definition unreachable : Mongo :=
  {| mgo.collections := mgo.collections server2;
     mgo.indexes := mgo.indexes server2;
     mgo.open_sessions := mgo.open_sessions server2;
     mgo.round_trips := mgo.round_trips server2;
     mgo.faults := [Some (mgo.ErrBackend "connection refused")] |}.



(** A destination whose element type has two fields with one key. *)
Definition clash : type := TStruct [("Foo", TString); ("FOO", TString)].

End testing.

(** ** Describing the options supplied to [Init] *)

Inductive setting : Type :=
| SetAddress (address : string)
| SetDatabaseName (name : string)
| SetCollectionName (name : string).

Definition to_Option (s : setting) : Option :=
  match s with
  | SetAddress a => Address a
  | SetDatabaseName n => DatabaseName n
  | SetCollectionName n => CollectionName n
  end.

(** The last value supplied for each field, if any. *)
Definition last_Address (l : list setting) : option string :=
  fold_left (fun acc s => match s with SetAddress a => Some a | _ => acc end) l None.

Definition last_DatabaseName (l : list setting) : option string :=
  fold_left (fun acc s => match s with SetDatabaseName a => Some a | _ => acc end) l None.

Definition last_CollectionName (l : list setting) : option string :=
  fold_left (fun acc s => match s with SetCollectionName a => Some a | _ => acc end) l None.

(** ** Destinations of [List] *)

(** The destinations [list] refuses: nil, anything passed by value, and a
    pointer to something that is not a slice. *)
Definition not_a_slice_reference (out : iface) : Prop :=
  out = INil
  \/ (exists t v, out = IVal t v)
  \/ (exists t cell, out = IPtr t cell /\ kind t <> Slice).

(** The dynamic value of an event, behind a pointer or not. *)
Definition payload (i : iface) : option (type * value) :=
  match i with
  | IVal t v => Some (t, v)
  | IPtr t (Some v) => Some (t, v)
  | _ => None
  end.

(** What [validateEvent] reports: the [Id] is looked at first. *)
Definition validation_message (e : Event) : string :=
  if negb (bson.Valid (GetId e)) then
    "Event not valid Id = " +:+ bson.ObjectId_String (GetId e)
  else
    "Event not valid InstanceId = " +:+ bson.ObjectId_String (GetInstanceId e).

(** The envelope carries a payload ([Raw] is not nil). *)
Definition has_raw (re : rawEvent) : bool :=
  match Raw re with
  | Some _ => true
  | None => false
  end.

(** Induction on payload types, with the fields of a struct. *)
Fixpoint type_fields_ind (P : type -> Prop)
    (HBool : P TBool) (HInt : P TInt) (HString : P TString) (HObjectId : P TObjectId)
    (HStruct : forall fs, Forall (fun p => P p.2) fs -> P (TStruct fs))
    (HSlice : forall e, P e -> P (TSlice e)) (t : type) {struct t} : P t :=
  match t with
  | TBool => HBool
  | TInt => HInt
  | TString => HString
  | TObjectId => HObjectId
  | TStruct fs =>
      HStruct fs
        ((fix go (l : list (string * type)) : Forall (fun p => P p.2) l :=
            match l with
            | [] => List.Forall_nil _
            | p :: r =>
                List.Forall_cons _ p r
                  (type_fields_ind P HBool HInt HString HObjectId HStruct HSlice p.2)
                  (go r)
            end) fs)
  | TSlice e => HSlice e (type_fields_ind P HBool HInt HString HObjectId HStruct HSlice e)
  end.

(** ** What deserializing an envelope gives *)

(** The payload of an envelope decoded into a fresh zero value of type
    [st] ([decoder.readElemTo] on the raw element). *)
Definition decoded (st : type) (re : rawEvent) : value :=
  match Raw re with
  | Some raw => (bson.readElemTo st (zero st) raw).1
  | None => zero st
  end.




(** ** Vocabulary of the further properties *)

(** [store := &MongoEventStore{}] before [Init]. *)
Definition zero_store : MongoEventStore := {| Session := None; options := None |}.

(** An envelope as [Create] and [Update] write them: both identifiers are
    valid and the payload is a document. *)
Definition wellformed (re : rawEvent) : bool :=
  bson.Valid (Id re) && bson.Valid (InstanceId re)
  && match Raw re with
     | Some (bson.BDoc _) => true
     | _ => false
     end.

(** What the loop of [list] appends for an envelope: the content of a fresh
    element of type [st] after [fromEvent]. *)
Definition reconstruct (st : type) (re : rawEvent) : value :=
  match fromEvent (New st) re with
  | (IPtr _ (Some x), _) => x
  | _ => zero st
  end.

(** [Create] of each event in turn, as long as each returns nil. *)
Fixpoint create_all (store : MongoEventStore) (es : list Event) (m : Mongo)
  : option Mongo :=
  match es with
  | [] => Some m
  | e :: r =>
      match MongoEventStore.Create store e m with
      | (Returned None, m') => create_all store r m'
      | _ => None
      end
  end.

(** The value behind an event. *)
Definition event_value (e : Event) : value :=
  match payload (self e) with
  | Some (_, v) => v
  | None => VStruct []
  end.

(** The field an option sets. *)
Definition field_of (s : setting) : nat :=
  match s with
  | SetAddress _ => 0
  | SetDatabaseName _ => 1
  | SetCollectionName _ => 2
  end.

(** * Properties *)

(** ** The driver model *)

Section DriverFacts.

Context {D : Type} (doc_id : D -> bson.ObjectId).
Implicit Types (m : mgo.Server D) (ns : string * string).

Lemma round_trip_sessions m :
  mgo.open_sessions (mgo.round_trip m).2 = mgo.open_sessions m.
Proof. reflexivity. Qed.

Lemma round_trip_collection ns m :
  mgo.collection ns (mgo.round_trip m).2 = mgo.collection ns m.
Proof. reflexivity. Qed.

Lemma collection_set ns c m :
  mgo.collection ns (mgo.set_collection ns c m) = c.
Proof.
  unfold mgo.collection, mgo.set_collection; simpl.
  by rewrite lookup_insert_eq.
Qed.

Lemma collection_Copy ns m : mgo.collection ns (mgo.Copy m) = mgo.collection ns m.
Proof. reflexivity. Qed.

Lemma collection_Close ns m : mgo.collection ns (mgo.Close m) = mgo.collection ns m.
Proof. reflexivity. Qed.

Lemma Insert_sessions ns d m :
  mgo.open_sessions (mgo.Insert doc_id ns d m).2 = mgo.open_sessions m.
Proof.
  unfold mgo.Insert, mgo.round_trip.
  destruct (mgo.next_fault m); [reflexivity|].
  match goal with |- context [if ?b then _ else _] => destruct b end; reflexivity.
Qed.

Lemma Update_sessions ns id d m :
  mgo.open_sessions (mgo.Update doc_id ns id d m).2 = mgo.open_sessions m.
Proof.
  unfold mgo.Update, mgo.round_trip.
  destruct (mgo.next_fault m); [reflexivity|].
  match goal with |- context [match ?b with Some _ => _ | None => _ end] => destruct b end;
    reflexivity.
Qed.

Lemma One_sessions ns f d m :
  mgo.open_sessions (mgo.One ns f d m).2 = mgo.open_sessions m.
Proof.
  unfold mgo.One, mgo.round_trip.
  destruct (mgo.next_fault m); [reflexivity|].
  match goal with |- context [match ?b with [] => _ | _ :: _ => _ end] => destruct b end;
    reflexivity.
Qed.

Lemma All_sessions ns f m :
  mgo.open_sessions (mgo.All ns f m).2 = mgo.open_sessions m.
Proof.
  unfold mgo.All, mgo.round_trip.
  destruct (mgo.next_fault m); reflexivity.
Qed.

(** An answered [One] returns the first match. *)
Lemma One_answers ns f d m :
  mgo.next_fault m = None ->
  (mgo.One ns f d m).1 =
    match mgo.matching f (mgo.collection ns m) with
    | [] => (d, Some mgo.ErrNotFound)
    | x :: _ => (x, None)
    end.
Proof.
  intros Hf. unfold mgo.One, mgo.round_trip. rewrite Hf.
  change (mgo.collection ns _) with (mgo.collection ns m).
  destruct (mgo.matching f (mgo.collection ns m)); reflexivity.
Qed.

(** A failed round trip is what [One] returns. *)
Lemma One_fails ns f d m err :
  mgo.next_fault m = Some err -> (mgo.One ns f d m).1 = (d, Some err).
Proof. intros Hf. unfold mgo.One, mgo.round_trip. by rewrite Hf. Qed.

Lemma All_answers ns f m :
  mgo.next_fault m = None ->
  mgo.All ns f m = ((mgo.matching f (mgo.collection ns m), None), (mgo.round_trip m).2).
Proof. intros Hf. unfold mgo.All, mgo.round_trip. by rewrite Hf. Qed.

Lemma All_fails ns f m err :
  mgo.next_fault m = Some err ->
  mgo.All ns f m = (([], Some err), (mgo.round_trip m).2).
Proof. intros Hf. unfold mgo.All, mgo.round_trip. by rewrite Hf. Qed.

End DriverFacts.

(** ** Validation *)

Lemma validateEvent_invalid e :
  bson.Valid (GetId e) && bson.Valid (GetInstanceId e) = false ->
  validateEvent e = Some (Errorf (validation_message e)).
Proof.
  unfold validateEvent, validation_message.
  destruct (bson.Valid (GetId e)); simpl; [|reflexivity].
  by intros ->.
Qed.

Lemma validateEvent_None e :
  validateEvent e = None -> bson.Valid (GetId e) = true.
Proof. unfold validateEvent. by destruct (bson.Valid (GetId e)). Qed.

Lemma validateEvent_valid e :
  bson.Valid (GetId e) && bson.Valid (GetInstanceId e) = true ->
  validateEvent e = None.
Proof.
  unfold validateEvent. intros [-> ->]%andb_prop. reflexivity.
Qed.

(** C3: an event whose [Id] or [InstanceId] is not valid makes [Create] and
    [Update] return the validation error, whose message names the field that
    failed ([Id] first), with the server exactly as it was: no session
    copied, no round trip made, no collection written. *)
Theorem invalid_event_is_refused_before_any_call store e (m : Mongo) :
  bson.Valid (GetId e) && bson.Valid (GetInstanceId e) = false ->
  MongoEventStore.Create store e m = (Returned (Some (Errorf (validation_message e))), m)
  /\ MongoEventStore.Update store e m = (Returned (Some (Errorf (validation_message e))), m)
  /\ (bson.Valid (GetId e) = false ->
      validation_message e = "Event not valid Id = " +:+ bson.ObjectId_String (GetId e))
  /\ (bson.Valid (GetId e) = true ->
      validation_message e =
        "Event not valid InstanceId = " +:+ bson.ObjectId_String (GetInstanceId e)).
Proof.
  intros Hinv. pose proof (validateEvent_invalid e Hinv) as Hv.
  unfold MongoEventStore.Create, MongoEventStore.Update. rewrite Hv.
  repeat split; unfold validation_message; by intros ->.
Qed.

Lemma invalid_event_is_refused_witness :
  MongoEventStore.Create testing.store (testing.new_testEvent "" "" "x") testing.server
    = (Returned (Some (Errorf ("Event not valid Id = ObjectIdHex(" +:+ bson.dquote
                                 +:+ bson.dquote +:+ ")"))), testing.server).
Proof.
  refine (proj1 (invalid_event_is_refused_before_any_call
                   testing.store (testing.new_testEvent "" "" "x") testing.server _)).
  reflexivity.
Defined.

(** ** Options *)

Lemma newOptions_fold (l : list setting) (o : Options) :
  fold_left (fun (o : Options) (opt : Option) => opt o) (map to_Option l) o =
    Options.mk (default (Options.Address o) (last_Address l))
               (default (Options.DatabaseName o) (last_DatabaseName l))
               (default (Options.CollectionName o) (last_CollectionName l)).
Proof.
  induction l as [|s l IH] using rev_ind.
  - by destruct o.
  - unfold last_Address, last_DatabaseName, last_CollectionName in *.
    rewrite map_app, !fold_left_app, IH.
    by destruct s.
Qed.

(** C9: [newOptions] starts from [localhost:27017], [event-sourcing] and
    [event]; each option supplied overrides its own field, the last one
    supplied for a field wins, and a field no option names keeps its
    default.  [Init] stores exactly these options in the store. *)
Theorem newOptions_defaults_and_overrides (l : list setting) store (m : Mongo) :
  newOptions (map to_Option l) =
    Options.mk (default "localhost:27017" (last_Address l))
               (default "event-sourcing" (last_DatabaseName l))
               (default "event" (last_CollectionName l))
  /\ options (MongoEventStore.Init store (map to_Option l) m).1.1
     = Some (newOptions (map to_Option l)).
Proof.
  split.
  - unfold newOptions. by rewrite newOptions_fold.
  - unfold MongoEventStore.Init.
    destruct (mgo.Dial _ m) as [[s [err|]] m1]; [reflexivity|].
    by destruct (mgo.EnsureIndex _ _ m1).
Qed.

(** ** [Init] *)

(** A store whose [Init] returned nil has its session and its options. *)
Lemma Init_initialises store opts (m m' : Mongo) store' :
  MongoEventStore.Init store opts m = ((store', None), m') ->
  Session store' = Some {| mgo.addr := Options.Address (newOptions opts) |}
  /\ options store' = Some (newOptions opts).
Proof.
  unfold MongoEventStore.Init, mgo.Dial.
  destruct (mgo.round_trip m) as [[err|] m1]; [done|].
  destruct (mgo.EnsureIndex _ _ _) as [[err|] m2]; [done|].
  by intros [= <- _].
Qed.

(** [List] and [ListFiltered] are [list] without and with a filter. *)
Lemma List_unfold store out (m : Mongo) :
  MongoEventStore.List store out m = MongoEventStore.list store out None m.
Proof. reflexivity. Qed.

Lemma ListFiltered_unfold store out f (m : Mongo) :
  MongoEventStore.ListFiltered store out f m = MongoEventStore.list store out f m.
Proof. reflexivity. Qed.

(** ** Sessions *)

Lemma scoped_sessions {A} (body : Mongo -> A * Mongo) (m : Mongo) :
  (forall m0, mgo.open_sessions (body m0).2 = mgo.open_sessions m0) ->
  mgo.open_sessions (MongoEventStore.scoped body m).2 = mgo.open_sessions m.
Proof.
  intros Hbody. unfold MongoEventStore.scoped.
  specialize (Hbody (mgo.Copy m)). destruct (body (mgo.Copy m)) as [r m'].
  simpl in *. by rewrite Hbody.
Qed.

(** [Create] closes the session it copied, however it ends. *)
Lemma Create_sessions store e (m : Mongo) :
  mgo.open_sessions (MongoEventStore.Create store e m).2 = mgo.open_sessions m.
Proof.
  unfold MongoEventStore.Create.
  destruct (validateEvent e); [reflexivity|].
  destruct (Session store); [|reflexivity].
  apply scoped_sessions. intros m0.
  destruct (buildEvent e) as [re [err|]]; [reflexivity|].
  destruct (options store) as [o|]; [|reflexivity].
  pose proof (Insert_sessions Id (MongoEventStore.C o) re m0) as H.
  by destruct (mgo.Insert Id (MongoEventStore.C o) re m0).
Qed.

Lemma Update_sessions_balanced store e (m : Mongo) :
  mgo.open_sessions (MongoEventStore.Update store e m).2 = mgo.open_sessions m.
Proof.
  unfold MongoEventStore.Update.
  destruct (validateEvent e); [reflexivity|].
  destruct (Session store); [|reflexivity].
  apply scoped_sessions. intros m0.
  destruct (buildEvent e) as [re [err|]]; [reflexivity|].
  destruct (options store) as [o|]; [|reflexivity].
  pose proof (Update_sessions Id (MongoEventStore.C o) (Id re) re m0) as H.
  by destruct (mgo.Update Id (MongoEventStore.C o) (Id re) re m0).
Qed.

Lemma Get_sessions store id out (m : Mongo) :
  mgo.open_sessions (MongoEventStore.Get store id out m).2 = mgo.open_sessions m.
Proof.
  unfold MongoEventStore.Get.
  destruct (Session store); [|reflexivity].
  apply scoped_sessions. intros m0.
  destruct (options store) as [o|]; [|reflexivity].
  destruct (MongoEventStore.by_id id) as [selector|]; [|reflexivity].
  match goal with |- context [mgo.One ?ns ?f ?d m0] =>
    pose proof (One_sessions ns f d m0) as H; destruct (mgo.One ns f d m0) as [[e [err|]] m']
  end; exact H.
Qed.

(** [list] copies a session once its destination is accepted and never
    closes it. *)
Lemma list_sessions store s out f (m : Mongo) :
  Session store = Some s ->
  MongoEventStore.not_slice_ptr out = false ->
  mgo.open_sessions (MongoEventStore.list store out f m).2 = S (mgo.open_sessions m).
Proof.
  intros Hs Hout. unfold MongoEventStore.list. rewrite Hout, Hs.
  destruct (options store) as [o|]; [|reflexivity].
  pose proof (All_sessions (MongoEventStore.C o) f (mgo.Copy m)) as H.
  destruct (mgo.All (MongoEventStore.C o) f (mgo.Copy m)) as [[res [err|]] m']; [exact H|].
  destruct out as [| |[] cell]; try exact H.
  by destruct (MongoEventStore.list_loop elem res cell).
Qed.

(** C8, at [List(&list)] with [var list []testEvent] on the store of the
    tests holding two events: the call returns nil and one more session is
    open than before, since [list] has no [session.Close()]. *)
Theorem List_leaves_its_session_open :
  (MongoEventStore.List testing.store
     (IPtr (TSlice testing.testEvent) (Some (VSlice []))) testing.server2).1.2
    = Returned None
  /\ mgo.open_sessions
       (MongoEventStore.List testing.store
          (IPtr (TSlice testing.testEvent) (Some (VSlice []))) testing.server2).2
     = S (mgo.open_sessions testing.server2).
Proof. split; vm_compute; reflexivity. Qed.

(** ** Decoding into a pointer *)

(** [Raw.Unmarshal] through a pointer to a variable leaves a pointer to a
    variable of the same type. *)
Lemma Raw_Unmarshal_pointer raw t cur :
  exists v, (bson.Raw_Unmarshal raw (IPtr t (Some cur))).1 = IPtr t (Some v)
            /\ v = (bson.readElemTo t cur raw).1.
Proof.
  unfold bson.Raw_Unmarshal.
  destruct (bson.readElemTo t cur raw) as [v []]; by exists v.
Qed.

Lemma fromEvent_New st re :
  has_raw re = true ->
  exists x err, fromEvent (New st) re = (IPtr st (Some x), Returned err).
Proof.
  unfold has_raw, fromEvent, New. destruct (Raw re) as [r|]; [intros _|done].
  destruct (Raw_Unmarshal_pointer r st (zero st)) as (v & Hv & _).
  destruct (bson.Raw_Unmarshal r (IPtr st (Some (zero st)))) as [out' err].
  simpl in Hv. subst out'. by eexists _, _.
Qed.

(** ** The loop of [list] *)

(** The loop never returns an error: what [fromEvent] reports is dropped. *)
Lemma list_loop_no_error st res cell err :
  (MongoEventStore.list_loop st res cell).2 <> Returned (Some err).
Proof.
  revert cell. induction res as [|re res IH]; intros cell; simpl; [done|].
  unfold MongoEventStore.list_step.
  destruct (fromEvent (New st) re) as [event' [e|]]; [|done].
  destruct cell as [[]|]; try done.
  destruct event' as [| |t [x|]]; done.
Qed.

(** On envelopes that carry a payload the loop appends one element per
    envelope, in order, after what the slice held. *)
Lemma list_loop_appends st res old :
  forallb has_raw res = true ->
  exists elems,
    MongoEventStore.list_loop st res (Some (VSlice old))
      = (Some (VSlice (old ++ elems)), Returned None)
    /\ Forall2 (fun re x => (fromEvent (New st) re).1 = IPtr st (Some x)) res elems.
Proof.
  revert old. induction res as [|re res IH]; intros old Hraw; simpl in *.
  - exists []. by rewrite app_nil_r.
  - apply andb_prop in Hraw as [Hre Hres].
    destruct (fromEvent_New st re Hre) as (x & err & Hx).
    unfold MongoEventStore.list_step. rewrite Hx.
    destruct (IH (old ++ [x]) Hres) as (elems & Hloop & Hall).
    exists (x :: elems). rewrite Hloop, <- app_assoc. split; [done|].
    constructor; [by rewrite Hx | done].
Qed.

(** ** The guard of [list] *)

Lemma not_slice_ptr_spec out :
  MongoEventStore.not_slice_ptr out = true <-> not_a_slice_reference out.
Proof.
  unfold not_a_slice_reference. destruct out as [|t v|t cell]; simpl.
  - split; [by left | done].
  - split; [intros _; right; left; by eexists _, _ |].
    intros _. unfold MongoEventStore.not_slice_ptr. simpl. by destruct t.
  - unfold MongoEventStore.not_slice_ptr. simpl. split.
    + intros H. right; right. exists t, cell. split; [done|]. by destruct t.
    + intros [H|[(t' & v & H)|(t' & c' & H & Hk)]]; try done.
      injection H as <- <-. by destruct t.
Qed.

Lemma list_refuses store out f (m : Mongo) :
  MongoEventStore.not_slice_ptr out = true ->
  MongoEventStore.list store out f m = ((out, Returned (Some ErrInterfaceNotSlicePtr)), m).
Proof. intros H. unfold MongoEventStore.list. by rewrite H. Qed.

Lemma list_accepts_never_ErrInterfaceNotSlicePtr store out f (m : Mongo) :
  MongoEventStore.not_slice_ptr out = false ->
  (MongoEventStore.list store out f m).1.2 <> Returned (Some ErrInterfaceNotSlicePtr).
Proof.
  intros H. unfold MongoEventStore.list. rewrite H.
  destruct (Session store); [|done].
  destruct (options store) as [o|]; [|done].
  destruct (mgo.All (MongoEventStore.C o) f (mgo.Copy m)) as [[res [err|]] m']; [done|].
  destruct out as [| |[] cell]; try done.
  pose proof (list_loop_no_error elem res cell ErrInterfaceNotSlicePtr) as Hl.
  by destruct (MongoEventStore.list_loop elem res cell).
Qed.

(** What an accepted [list] returns when the server answers. *)
Lemma list_answers store s o st cell f (m : Mongo) :
  Session store = Some s -> options store = Some o ->
  mgo.next_fault m = None ->
  (MongoEventStore.list store (IPtr (TSlice st) cell) f m).1 =
    (IPtr (TSlice st)
       (MongoEventStore.list_loop st
          (mgo.matching f (mgo.collection (MongoEventStore.C o) m)) cell).1,
     (MongoEventStore.list_loop st
        (mgo.matching f (mgo.collection (MongoEventStore.C o) m)) cell).2).
Proof.
  intros Hs Ho Hf. unfold MongoEventStore.list.
  change (MongoEventStore.not_slice_ptr (IPtr (TSlice st) cell)) with false.
  cbv iota. rewrite Hs, Ho.
  rewrite (All_answers (MongoEventStore.C o) f (mgo.Copy m)) by exact Hf.
  change (mgo.collection (MongoEventStore.C o) (mgo.Copy m))
    with (mgo.collection (MongoEventStore.C o) m).
  by destruct (MongoEventStore.list_loop st _ cell).
Qed.

(** ** [List] and [ListFiltered] *)

(** C5: [list] (so [List] and [ListFiltered]) returns
    [ErrInterfaceNotSlicePtr] exactly when the destination is nil, is not a
    pointer, or points to something that is not a slice; and with a pointer
    to an empty slice, the server answering and nothing matched, it returns
    nil and the slice is still empty. *)
Theorem list_destination_check store out f (m : Mongo) :
  ((MongoEventStore.list store out f m).1.2 = Returned (Some ErrInterfaceNotSlicePtr)
   <-> not_a_slice_reference out)
  /\ (forall s o st,
        Session store = Some s -> options store = Some o ->
        out = IPtr (TSlice st) (Some (VSlice [])) ->
        mgo.next_fault m = None ->
        mgo.matching f (mgo.collection (MongoEventStore.C o) m) = [] ->
        (MongoEventStore.list store out f m).1
          = (IPtr (TSlice st) (Some (VSlice [])), Returned None)).
Proof.
  split.
  - rewrite <- not_slice_ptr_spec.
    destruct (MongoEventStore.not_slice_ptr out) eqn:Hg.
    + by rewrite list_refuses.
    + split; [|done]. intros H.
      by apply list_accepts_never_ErrInterfaceNotSlicePtr in H.
  - intros s o st Hs Ho -> Hf Hnone.
    rewrite (list_answers store s o) by done. by rewrite Hnone.
Qed.

Lemma list_destination_check_witness :
  (MongoEventStore.List testing.store INil testing.server).1.2
    = Returned (Some ErrInterfaceNotSlicePtr)
  /\ (MongoEventStore.List testing.store
        (IVal (TSlice testing.testEvent) (VSlice [])) testing.server).1.2
     = Returned (Some ErrInterfaceNotSlicePtr)
  /\ (MongoEventStore.List testing.store
        (IPtr (TSlice testing.testEvent) (Some (VSlice []))) testing.server).1
     = (IPtr (TSlice testing.testEvent) (Some (VSlice [])), Returned None).
Proof.
  split; [|split].
  - apply (proj1 (list_destination_check testing.store INil None testing.server)).
    by left.
  - apply (proj1 (list_destination_check testing.store
                    (IVal (TSlice testing.testEvent) (VSlice [])) None testing.server)).
    right; left. by eexists _, _.
  - exact (proj2 (list_destination_check testing.store
                    (IPtr (TSlice testing.testEvent) (Some (VSlice []))) None testing.server)
             {| mgo.addr := testing.mongoAddress |}
             (Options.mk testing.mongoAddress "event-sourcing-test" "tests")
             testing.testEvent eq_refl eq_refl eq_refl eq_refl eq_refl).
Defined.

(** C6, at [List(&list)] with [var list []struct{ Foo, FOO string }] on the
    store of the tests holding two events: [fromEvent] fails on each
    envelope (the two fields share the key [foo]), and [List] returns nil
    with two zero elements appended; the error is dropped, where [Get]
    returns it. *)
Theorem List_drops_the_decoding_error :
  Forall (fun re => (fromEvent (New testing.clash) re).2
                    = Returned (Some (BsonError (bson.ErrDuplicatedKey "foo"))))
    (mgo.collection
       (MongoEventStore.C (Options.mk testing.mongoAddress "event-sourcing-test" "tests"))
       testing.server2)
  /\ MongoEventStore.List testing.store
       (IPtr (TSlice testing.clash) (Some (VSlice []))) testing.server2
     = ((IPtr (TSlice testing.clash)
           (Some (VSlice [zero testing.clash; zero testing.clash])),
         Returned None),
        (mgo.round_trip (mgo.Copy testing.server2)).2)
  /\ (MongoEventStore.Get testing.store testing.id1
        (IPtr testing.clash (Some (zero testing.clash))) testing.server2).1.2
     = Returned (Some (BsonError (bson.ErrDuplicatedKey "foo"))).
Proof.
  split; [|split].
  - vm_compute. repeat constructor.
  - vm_compute. reflexivity.
  - vm_compute. reflexivity.
Qed.

(** ** [Get] *)

Lemma by_id_valid id :
  bson.Valid id = true -> MongoEventStore.by_id id = bson.Ok (MongoEventStore.matches_id id).
Proof. unfold MongoEventStore.by_id. simpl. by intros ->. Qed.

Lemma by_id_invalid id :
  bson.Valid id = false ->
  MongoEventStore.by_id id = bson.Err (bson.ErrObjectIdLength (String.length id)).
Proof. unfold MongoEventStore.by_id. simpl. by intros ->. Qed.

(** What [Get] does with a 12-byte identifier once the driver has looked
    the envelope up. *)
Lemma Get_unfold store s o id out (m : Mongo) :
  Session store = Some s -> options store = Some o ->
  bson.Valid id = true ->
  (MongoEventStore.Get store id out m).1 =
    match (mgo.One (MongoEventStore.C o) (MongoEventStore.matches_id id)
             {| Id := ""; InstanceId := ""; Type_ := 0; Raw := None |} (mgo.Copy m)).1 with
    | (_, Some err) =>
        (out, Returned (Some (if mgo.is_ErrNotFound err then ErrNotFound else MgoError err)))
    | (e, None) => fromEvent out e
    end.
Proof.
  intros Hs Ho Hv. unfold MongoEventStore.Get, MongoEventStore.scoped.
  rewrite Hs, Ho, (by_id_valid id Hv).
  destruct (mgo.One _ _ _ (mgo.Copy m)) as [[e [err|]] m']; reflexivity.
Qed.

(** With an identifier that is not 12 bytes long [Get] returns the codec's
    error and leaves the destination and the server as they were. *)
Lemma Get_invalid_id store s o id out (m : Mongo) :
  Session store = Some s -> options store = Some o ->
  bson.Valid id = false ->
  MongoEventStore.Get store id out m
  = ((out, Returned (Some (BsonError (bson.ErrObjectIdLength (String.length id))))), m).
Proof.
  intros Hs Ho Hv. unfold MongoEventStore.Get, MongoEventStore.scoped.
  rewrite Hs, Ho, (by_id_invalid id Hv). by destruct m.
Qed.

Lemma matching_by_id_none id (c : list rawEvent) :
  existsb (mgo.has_id Id id) c = false ->
  mgo.matching (MongoEventStore.matches_id id) c = [].
Proof.
  unfold MongoEventStore.matches_id, mgo.matching.
  induction c as [|x c IH]; simpl; [done|].
  intros [-> Hc]%orb_false_elim. auto.
Qed.

(** C4, as stated, fails at an identifier that is not 12 bytes long: no
    envelope has the identifier [never created] (13 bytes) and the server
    would answer, yet [Get] returns the codec's length error, not
    [ErrNotFound]: the selector does not marshal. *)
Lemma Get_of_a_malformed_identifier_is_not_ErrNotFound :
  existsb (mgo.has_id Id "never created")
    (mgo.collection
       (MongoEventStore.C (Options.mk testing.mongoAddress "event-sourcing-test" "tests"))
       testing.server2) = false
  /\ mgo.next_fault testing.server2 = None
  /\ (MongoEventStore.Get testing.store "never created"
        (IPtr testing.testEvent (Some (zero testing.testEvent))) testing.server2).1.2
     = Returned (Some (BsonError (bson.ErrObjectIdLength 13)))
  /\ (MongoEventStore.Get testing.store "never created"
        (IPtr testing.testEvent (Some (zero testing.testEvent))) testing.server2).1.2
     <> Returned (Some ErrNotFound).
Proof. repeat split. discriminate. Qed.

(** C4, amended: for an identifier of 12 bytes that no envelope has, an
    answered find makes [Get] return [ErrNotFound] and leave the destination
    alone; when the find fails with anything but the driver's not-found
    error, [Get] returns that error as it is, and it is not [ErrNotFound];
    for an identifier that is not 12 bytes long [Get] returns the codec's
    length error as it is, without a round trip and with the server as it
    was. *)
Theorem Get_not_found store s o id out (m : Mongo) :
  Session store = Some s -> options store = Some o ->
  (bson.Valid id = true ->
   mgo.next_fault m = None ->
   existsb (mgo.has_id Id id) (mgo.collection (MongoEventStore.C o) m) = false ->
   (MongoEventStore.Get store id out m).1 = (out, Returned (Some ErrNotFound)))
  /\ (forall err,
        bson.Valid id = true ->
        mgo.next_fault m = Some err -> err <> mgo.ErrNotFound ->
        (MongoEventStore.Get store id out m).1 = (out, Returned (Some (MgoError err)))
        /\ MgoError err <> ErrNotFound)
  /\ (bson.Valid id = false ->
      MongoEventStore.Get store id out m
      = ((out, Returned (Some (BsonError (bson.ErrObjectIdLength (String.length id))))), m)
      /\ BsonError (bson.ErrObjectIdLength (String.length id)) <> ErrNotFound).
Proof.
  intros Hs Ho. split; [|split].
  - intros Hv Hf Hnone. rewrite (Get_unfold store s o) by done.
    rewrite One_answers by exact Hf.
    change (mgo.collection (MongoEventStore.C o) (mgo.Copy m))
      with (mgo.collection (MongoEventStore.C o) m).
    by rewrite matching_by_id_none.
  - intros err Hv Hf Hne. split; [|done]. rewrite (Get_unfold store s o) by done.
    rewrite (One_fails _ _ _ (mgo.Copy m) err) by exact Hf.
    by destruct err.
  - intros Hv. split; [|done]. by apply (Get_invalid_id store s o).
Qed.

Lemma Get_not_found_witness :
  (MongoEventStore.Get testing.store "neverCreated"
     (IPtr testing.testEvent (Some (zero testing.testEvent))) testing.server2).1
  = (IPtr testing.testEvent (Some (zero testing.testEvent)), Returned (Some ErrNotFound))
  /\ (MongoEventStore.Get testing.store testing.id1
        (IPtr testing.testEvent (Some (zero testing.testEvent))) testing.unreachable).1
     = (IPtr testing.testEvent (Some (zero testing.testEvent)),
        Returned (Some (MgoError (mgo.ErrBackend "connection refused"))))
  /\ MongoEventStore.Get testing.store ""
       (IPtr testing.testEvent (Some (zero testing.testEvent))) testing.server2
     = ((IPtr testing.testEvent (Some (zero testing.testEvent)),
         Returned (Some (BsonError (bson.ErrObjectIdLength 0)))), testing.server2).
Proof.
  split; [|split].
  - exact (proj1 (Get_not_found testing.store
                    {| mgo.addr := testing.mongoAddress |}
                    (Options.mk testing.mongoAddress "event-sourcing-test" "tests")
                    "neverCreated"
                    (IPtr testing.testEvent (Some (zero testing.testEvent))) testing.server2
                    eq_refl eq_refl) eq_refl eq_refl eq_refl).
  - refine (proj1 (proj1 (proj2 (Get_not_found testing.store
                    {| mgo.addr := testing.mongoAddress |}
                    (Options.mk testing.mongoAddress "event-sourcing-test" "tests")
                    testing.id1
                    (IPtr testing.testEvent (Some (zero testing.testEvent)))
                    testing.unreachable eq_refl eq_refl))
                    (mgo.ErrBackend "connection refused") eq_refl eq_refl _)).
    discriminate.
  - exact (proj1 (proj2 (proj2 (Get_not_found testing.store
                    {| mgo.addr := testing.mongoAddress |}
                    (Options.mk testing.mongoAddress "event-sourcing-test" "tests")
                    ""
                    (IPtr testing.testEvent (Some (zero testing.testEvent))) testing.server2
                    eq_refl eq_refl)) eq_refl)).
Defined.

(** ** The codec: what was marshalled is what is unmarshalled *)

Lemma existsb_eqb_false (k : string) (seen : list string) :
  existsb (String.eqb k) seen = false -> k ∉ seen.
Proof.
  induction seen as [|x seen IH]; simpl; [intros _; apply not_elem_of_nil|].
  intros [Hx Hs]%orb_false_elim. apply not_elem_of_cons. split; [|auto].
  by apply String.eqb_neq.
Qed.

(** [getStructInfo] accepts a struct only when its keys are distinct. *)
Lemma duplicated_None seen names :
  bson.duplicated seen names = None ->
  NoDup (map ToLower names) /\ Forall (fun n => ToLower n ∉ seen) names.
Proof.
  revert seen. induction names as [|n names IH]; intros seen; simpl.
  - intros _. split; constructor.
  - destruct (existsb (String.eqb (ToLower n)) seen) eqn:Hex; [done|].
    intros [Hnd Hall]%IH. apply existsb_eqb_false in Hex. split.
    + constructor; [|done]. intros Hin.
      apply list_elem_of_fmap in Hin as (n' & Heq & Hin').
      rewrite Forall_forall in Hall. apply (Hall n' Hin'). rewrite <- Heq. by left.
    + constructor; [done|]. eapply Forall_impl; [exact Hall|].
      simpl. intros n' Hn' Hin. apply Hn'. by right.
Qed.

Lemma fields_match_names chk fts fs :
  fields_match chk fts fs = true -> map fst fts = map fst fs.
Proof.
  revert fs. induction fts as [|[n ft] fts IH]; intros [|[m fv] fs]; simpl; try done.
  intros [[Hn _]%andb_prop Hr]%andb_prop. apply String.eqb_eq in Hn as ->.
  f_equal. auto.
Qed.

(** Decoding under a key reaches the one field that has this key. *)
Lemma update_field_at key dec done_t n ft rest_t done_v m cv rest_v :
  length done_v = length done_t ->
  Forall (fun p => ToLower p.1 <> key) done_t ->
  ToLower n = key ->
  bson.update_field key dec (done_t ++ (n, ft) :: rest_t) (done_v ++ (m, cv) :: rest_v)
  = (done_v ++ (m, (dec ft cv).1) :: rest_v, (dec ft cv).2).
Proof.
  revert done_v. induction done_t as [|[n' ft'] done_t IH]; intros [|[m' cv'] done_v];
    simpl; try done.
  - intros _ _ ->. rewrite String.eqb_refl. by destruct (dec ft cv).
  - intros [= Hlen] [Hne Hall]%Forall_cons_1 Hkey. simpl in Hne.
    apply String.eqb_neq in Hne. rewrite Hne.
    by rewrite (IH done_v Hlen Hall Hkey).
Qed.

(** The fields of a struct come back one by one. *)
Lemma read_fields_roundtrip dec fts rest_t :
  forall rest_v d done_t done_v,
    fts = done_t ++ rest_t ->
    length done_v = length done_t ->
    NoDup (map ToLower (map fst fts)) ->
    fields_match has_type rest_t rest_v = true ->
    bson.add_fields bson.addElem rest_v = bson.Ok d ->
    Forall (fun p => forall v b cur,
              has_type p.2 v = true -> bson.addElem v = bson.Ok b ->
              dec b p.2 cur = (v, bson.Good)) rest_t ->
    bson.read_fields dec fts d (done_v ++ map (fun p => (p.1, zero p.2)) rest_t)
    = (done_v ++ rest_v, bson.Good).
Proof.
  induction rest_t as [|[n ft] rest_t IH];
    intros [|[m fv] rest_v] d done_t done_v Hfts Hlen Hnd Hmatch Hadd Hdec;
    simpl in Hmatch; try done.
  - simpl in Hadd. by injection Hadd as <-.
  - apply andb_prop in Hmatch as [[Hn Hty]%andb_prop Hmatch].
    apply String.eqb_eq in Hn as <-.
    simpl in Hadd. destruct (bson.addElem fv) as [b|] eqn:Hb; [|done].
    destruct (bson.add_fields bson.addElem rest_v) as [d'|] eqn:Hd'; [|done].
    injection Hadd as <-.
    apply Forall_cons_1 in Hdec as [Hft Hdec]. simpl in Hft.
    simpl. rewrite Hfts.
    rewrite (update_field_at (ToLower n) (dec b) done_t n ft rest_t done_v n (zero ft));
      [|done| |done].
    + rewrite (Hft fv b (zero ft) Hty Hb). simpl.
      rewrite <- Hfts.
      replace (done_v ++ (n, fv) :: map (fun p => (p.1, zero p.2)) rest_t)
        with ((done_v ++ [(n, fv)]) ++ map (fun p => (p.1, zero p.2)) rest_t)
        by (by rewrite <- app_assoc).
      rewrite (IH rest_v d' (done_t ++ [(n, ft)]) (done_v ++ [(n, fv)])); try done.
      * by rewrite <- app_assoc.
      * by rewrite <- app_assoc.
      * rewrite !length_app. simpl. by rewrite Hlen.
    + rewrite Hfts, !map_app in Hnd. simpl in Hnd.
      apply NoDup_app in Hnd as (_ & Hdisj & _).
      apply Forall_forall. intros p Hp Heq.
      apply (Hdisj (ToLower p.1)).
      * apply list_elem_of_fmap. exists p.1. split; [done|].
        apply list_elem_of_fmap. by exists p.
      * rewrite Heq. by left.
Qed.

(** The elements of a slice come back one by one. *)
Lemma read_elems_roundtrip dec te l :
  forall bs,
    forallb (has_type te) l = true ->
    bson.add_elems bson.addElem l = bson.Ok bs ->
    (forall v b, has_type te v = true -> bson.addElem v = bson.Ok b ->
                 dec b = (v, bson.Good)) ->
    bson.read_elems dec bs = bson.Ok l.
Proof.
  induction l as [|x l IH]; intros bs Hty Hadd Hdec; simpl in *.
  - by injection Hadd as <-.
  - apply andb_prop in Hty as [Hx Hl].
    destruct (bson.addElem x) as [b|] eqn:Hb; [|done].
    destruct (bson.add_elems bson.addElem l) as [bs'|] eqn:Hbs; [|done].
    injection Hadd as <-. simpl. rewrite (Hdec x b Hx Hb).
    by rewrite (IH bs' Hl eq_refl Hdec).
Qed.

Lemma readElemTo_struct fts cur d :
  bson.readElemTo (TStruct fts) cur (bson.BDoc d) =
    match bson.duplicated [] (map fst fts) with
    | Some k => (cur, bson.Fail (bson.ErrDuplicatedKey k))
    | None =>
        let (vs, st) :=
          bson.read_fields (fun x ft cv => bson.readElemTo ft cv x) fts d
                           (map (fun p => (p.1, zero p.2)) fts) in
        (VStruct vs, st)
    end.
Proof. reflexivity. Qed.

Lemma readElemTo_slice te cur l :
  bson.readElemTo (TSlice te) cur (bson.BArr l) =
    match bson.read_elems (fun x => bson.readElemTo te (zero te) x) l with
    | bson.Err e => (cur, bson.Fail e)
    | bson.Ok vs => (VSlice vs, bson.Good)
    end.
Proof. reflexivity. Qed.

(** Any value of type [t] that [addElem] encodes is what [readElemTo]
    decodes, whatever the variable held before. *)
Lemma readElemTo_addElem t :
  forall v b cur,
    has_type t v = true -> bson.addElem v = bson.Ok b ->
    bson.readElemTo t cur b = (v, bson.Good).
Proof.
  induction t as [| | | |fts IH|te IH] using type_fields_ind;
    intros v b cur Hty Henc; destruct v as [x|z|s|s|fields|elems];
    simpl in Hty; try done; simpl in Henc.
  - by injection Henc as <-.
  - by injection Henc as <-.
  - by injection Henc as <-.
  - destruct (bson.Valid s); [|done]. by injection Henc as <-.
  - unfold bson.add_struct in Henc.
    destruct (bson.duplicated [] (map fst fields)) eqn:Hdup; [done|].
    destruct (bson.add_fields bson.addElem fields) as [d|] eqn:Hd; [|done].
    injection Henc as <-.
    rewrite readElemTo_struct, (fields_match_names _ _ _ Hty), Hdup.
    pose proof (read_fields_roundtrip (fun x ft cv => bson.readElemTo ft cv x)
                  fts fts fields d [] [] eq_refl eq_refl) as Hrt.
    simpl in Hrt. rewrite Hrt; [done| |done|done|].
    + rewrite (fields_match_names _ _ _ Hty). by apply duplicated_None in Hdup as [? _].
    + eapply Forall_impl; [exact IH|]. simpl. intros p Hp v b cur'. apply Hp.
  - destruct (bson.add_elems bson.addElem elems) as [bs|] eqn:Hbs; [|done].
    injection Henc as <-.
    rewrite readElemTo_slice.
    rewrite (read_elems_roundtrip (fun x => bson.readElemTo te (zero te) x) te elems bs);
      try done.
    intros v b. apply IH.
Qed.

(** ** Building and reading envelopes *)

(** A successful [buildEvent] copies the three accessors and stores the
    marshalled document as [Raw]. *)
Lemma buildEvent_ok e re :
  buildEvent e = (re, None) ->
  exists d, bson.Marshal (self e) = bson.Ok d
            /\ re = {| Id := GetId e; InstanceId := GetInstanceId e;
                       Type_ := GetType e; Raw := Some (bson.BDoc d) |}.
Proof.
  unfold buildEvent, toBSONRaw.
  destruct (bson.Marshal (self e)) as [d|err]; [|done].
  intros [= <-]. by exists d.
Qed.

Lemma buildEvent_Marshal e d :
  bson.Marshal (self e) = bson.Ok d ->
  buildEvent e = ({| Id := GetId e; InstanceId := GetInstanceId e;
                     Type_ := GetType e; Raw := Some (bson.BDoc d) |}, None).
Proof. unfold buildEvent, toBSONRaw. by intros ->. Qed.

Lemma addStruct_addElem fs d :
  bson.addStruct fs = bson.Ok d -> bson.addElem (VStruct fs) = bson.Ok (bson.BDoc d).
Proof.
  unfold bson.addStruct. simpl. by intros ->.
Qed.

Lemma Marshal_payload i fts v d :
  payload i = Some (TStruct fts, v) -> has_type (TStruct fts) v = true ->
  bson.Marshal i = bson.Ok d ->
  bson.addElem v = bson.Ok (bson.BDoc d).
Proof.
  intros Hp Hty Hm. destruct v as [| | | |fs|]; try done.
  apply addStruct_addElem.
  destruct i as [|t x|t [x|]]; simpl in Hp; try done;
    injection Hp as _ ->; exact Hm.
Qed.

(** [fromEvent] into a pointer to a variable of the type that was
    marshalled gives the marshalled value back. *)
Lemma fromEvent_Marshal i fts v d cur id inst ty :
  payload i = Some (TStruct fts, v) -> has_type (TStruct fts) v = true ->
  bson.Marshal i = bson.Ok d ->
  fromEvent (IPtr (TStruct fts) (Some cur))
    {| Id := id; InstanceId := inst; Type_ := ty; Raw := Some (bson.BDoc d) |}
  = (IPtr (TStruct fts) (Some v), Returned None).
Proof.
  intros Hp Hty Hm. unfold fromEvent. cbn [Raw]. unfold bson.Raw_Unmarshal.
  by rewrite (readElemTo_addElem (TStruct fts) v (bson.BDoc d) cur Hty
                (Marshal_payload _ _ _ _ Hp Hty Hm)).
Qed.

(** ** Looking an envelope up by its identifier *)

Lemma matching_by_id_app id (c1 c2 : list rawEvent) :
  existsb (mgo.has_id Id id) c1 = false ->
  mgo.matching (MongoEventStore.matches_id id) (c1 ++ c2)
  = mgo.matching (MongoEventStore.matches_id id) c2.
Proof.
  intros H. pose proof (matching_by_id_none id c1 H) as Hn.
  unfold MongoEventStore.matches_id, mgo.matching in *.
  by rewrite List.filter_app, Hn.
Qed.

Lemma matching_by_id_head id re (c : list rawEvent) :
  Id re = id ->
  exists rest, mgo.matching (MongoEventStore.matches_id id) (re :: c) = re :: rest.
Proof.
  intros <-. unfold MongoEventStore.matches_id, mgo.matching, mgo.has_id. simpl.
  rewrite String.eqb_refl. by eexists.
Qed.

(** An answered [Get] decodes the first envelope with the identifier. *)
Lemma Get_found store s o id out re rest (m : Mongo) :
  Session store = Some s -> options store = Some o ->
  bson.Valid id = true ->
  mgo.next_fault m = None ->
  mgo.matching (MongoEventStore.matches_id id) (mgo.collection (MongoEventStore.C o) m)
    = re :: rest ->
  (MongoEventStore.Get store id out m).1 = fromEvent out re.
Proof.
  intros Hs Ho Hv Hf Hm. rewrite (Get_unfold store s o) by done.
  rewrite One_answers by exact Hf.
  change (mgo.collection (MongoEventStore.C o) (mgo.Copy m))
    with (mgo.collection (MongoEventStore.C o) m).
  by rewrite Hm.
Qed.

(** ** [Create] *)

(** What a [Create] that returned nil has done. *)
Lemma Create_ok store e (m m' : Mongo) :
  MongoEventStore.Create store e m = (Returned None, m') ->
  exists s o re,
    Session store = Some s /\ options store = Some o
    /\ validateEvent e = None
    /\ buildEvent e = (re, None)
    /\ mgo.next_fault m' = mgo.next_fault (mgo.round_trip m).2
    /\ existsb (mgo.has_id Id (Id re)) (mgo.collection (MongoEventStore.C o) m) = false
    /\ mgo.collection (MongoEventStore.C o) m'
       = mgo.collection (MongoEventStore.C o) m ++ [re].
Proof.
  unfold MongoEventStore.Create, MongoEventStore.scoped.
  destruct (validateEvent e); [done|].
  destruct (Session store) as [s|]; [|done].
  destruct (buildEvent e) as [re [err|]]; [done|].
  destruct (options store) as [o|]; [|done].
  unfold mgo.Insert, mgo.round_trip.
  destruct (mgo.next_fault (mgo.Copy m)); [done|].
  match goal with |- context [if ?b then _ else _] => destruct b eqn:Hex end; [done|].
  intros [= <-]. exists s, o, re. repeat split; try done.
  rewrite collection_Close, collection_set. reflexivity.
Qed.

(** [Create] returns nil when the event is valid and marshals, the server
    answers and the identifier is not stored yet. *)
Lemma Create_succeeds store s o e d (m : Mongo) :
  Session store = Some s -> options store = Some o ->
  bson.Valid (GetId e) && bson.Valid (GetInstanceId e) = true ->
  bson.Marshal (self e) = bson.Ok d ->
  mgo.next_fault m = None ->
  existsb (mgo.has_id Id (GetId e)) (mgo.collection (MongoEventStore.C o) m) = false ->
  exists m', MongoEventStore.Create store e m = (Returned None, m').
Proof.
  intros Hs Ho Hv Hm Hf Hfresh.
  unfold MongoEventStore.Create, MongoEventStore.scoped.
  rewrite (validateEvent_valid e Hv), Hs, (buildEvent_Marshal e d Hm), Ho.
  unfold mgo.Insert, mgo.round_trip.
  change (mgo.next_fault (mgo.Copy m)) with (mgo.next_fault m). rewrite Hf.
  match goal with |- context [if ?b then _ else _] =>
    change b with (existsb (mgo.has_id Id (GetId e))
                     (mgo.collection (MongoEventStore.C o) m)) end.
  rewrite Hfresh. by eexists.
Qed.

(** C1: after a [Create] that returned nil of an event [e] of a struct type,
    an answered [Get(e.GetId(), dest)] with [dest] pointing to a variable of
    that type returns nil and leaves in the variable the value of [e], field
    for field, whatever it held before. *)
Theorem Create_then_Get_returns_the_event store e fts v cur (m m' : Mongo) :
  payload (self e) = Some (TStruct fts, v) ->
  has_type (TStruct fts) v = true ->
  MongoEventStore.Create store e m = (Returned None, m') ->
  mgo.next_fault m' = None ->
  (MongoEventStore.Get store (GetId e) (IPtr (TStruct fts) (Some cur)) m').1
  = (IPtr (TStruct fts) (Some v), Returned None).
Proof.
  intros Hp Hty Hc Hf.
  apply Create_ok in Hc as (s & o & re & Hs & Ho & Hv & Hb & _ & Hfresh & Hcoll).
  apply validateEvent_None in Hv.
  apply buildEvent_ok in Hb as (d & Hm & ->). simpl in Hfresh.
  destruct (matching_by_id_head (GetId e)
              {| Id := GetId e; InstanceId := GetInstanceId e;
                 Type_ := GetType e; Raw := Some (bson.BDoc d) |} [] eq_refl)
    as (rest & Hrest).
  rewrite (Get_found store s o (GetId e) (IPtr (TStruct fts) (Some cur))
             {| Id := GetId e; InstanceId := GetInstanceId e;
                Type_ := GetType e; Raw := Some (bson.BDoc d) |} rest m' Hs Ho Hv Hf).
  - by apply (fromEvent_Marshal (self e)).
  - by rewrite Hcoll, matching_by_id_app.
Qed.

Lemma Create_then_Get_witness :
  (MongoEventStore.Get testing.store testing.id1
     (IPtr testing.testEvent (Some (zero testing.testEvent)))
     (MongoEventStore.Create testing.store testing.event1 testing.server).2).1
  = (IPtr testing.testEvent
       (Some (testing.testEvent_value testing.id1 testing.instance1 "This test 0")),
     Returned None).
Proof.
  exact (Create_then_Get_returns_the_event testing.store testing.event1
           [("Id", TObjectId); ("InstanceId", TObjectId); ("String", TString)]
           (testing.testEvent_value testing.id1 testing.instance1 "This test 0")
           (zero testing.testEvent) testing.server
           (MongoEventStore.Create testing.store testing.event1 testing.server).2
           eq_refl eq_refl eq_refl eq_refl).
Defined.

(** ** [Update] *)

(** [replace_first] replaces the first document with the identifier and
    nothing else. *)
Lemma replace_first_spec id (d : rawEvent) (c : list rawEvent) :
  existsb (mgo.has_id Id id) c = true ->
  exists before old after,
    c = before ++ old :: after
    /\ existsb (mgo.has_id Id id) before = false
    /\ Id old = id
    /\ mgo.replace_first Id id d c = Some (before ++ d :: after).
Proof.
  induction c as [|x c IH]; simpl; [done|].
  destruct (mgo.has_id Id id x) eqn:Hx; simpl.
  - intros _. exists [], x, c. repeat split. by apply String.eqb_eq in Hx.
  - intros (before & old & after & -> & Hb & Ho & Hr)%IH.
    exists (x :: before), old, after. simpl. rewrite Hx, Hr. by repeat split.
Qed.

(** C7: a valid event that marshals, with an envelope of its identifier
    stored and the server answering, makes [Update] return nil; the first
    envelope with that identifier is replaced as a whole by the new
    envelope (identifier, instance identifier, type tag and the newly
    marshalled payload), the other envelopes stay; and an answered [Get] on
    the identifier then yields the value of the new event. *)
Theorem Update_replaces_the_envelope store s o e' d fts v cur (m : Mongo) :
  Session store = Some s -> options store = Some o ->
  bson.Valid (GetId e') && bson.Valid (GetInstanceId e') = true ->
  payload (self e') = Some (TStruct fts, v) -> has_type (TStruct fts) v = true ->
  bson.Marshal (self e') = bson.Ok d ->
  mgo.next_fault m = None ->
  existsb (mgo.has_id Id (GetId e')) (mgo.collection (MongoEventStore.C o) m) = true ->
  exists m' before old after,
    MongoEventStore.Update store e' m = (Returned None, m')
    /\ mgo.collection (MongoEventStore.C o) m = before ++ old :: after
    /\ existsb (mgo.has_id Id (GetId e')) before = false
    /\ Id old = GetId e'
    /\ mgo.collection (MongoEventStore.C o) m'
       = before
         ++ {| Id := GetId e'; InstanceId := GetInstanceId e';
               Type_ := GetType e'; Raw := Some (bson.BDoc d) |} :: after
    /\ (mgo.next_fault m' = None ->
        (MongoEventStore.Get store (GetId e') (IPtr (TStruct fts) (Some cur)) m').1
        = (IPtr (TStruct fts) (Some v), Returned None)).
Proof.
  intros Hs Ho Hv Hp Hty Hm Hf Hex.
  set (re := {| Id := GetId e'; InstanceId := GetInstanceId e';
                Type_ := GetType e'; Raw := Some (bson.BDoc d) |}).
  destruct (replace_first_spec (GetId e') re _ Hex)
    as (before & old & after & Hc & Hb & Hold & Hr).
  eexists _, before, old, after.
  unfold MongoEventStore.Update, MongoEventStore.scoped.
  rewrite (validateEvent_valid e' Hv), Hs, (buildEvent_Marshal e' d Hm), Ho.
  fold re. unfold mgo.Update, mgo.round_trip.
  change (mgo.next_fault (mgo.Copy m)) with (mgo.next_fault m). rewrite Hf.
  match goal with |- context [mgo.replace_first Id ?i ?x ?c] =>
    change (mgo.replace_first Id i x c)
      with (mgo.replace_first Id (GetId e') re (mgo.collection (MongoEventStore.C o) m))
  end.
  rewrite Hr. split; [reflexivity|].
  rewrite collection_Close, collection_set.
  repeat split; try done.
  intros Hf'.
  destruct (matching_by_id_head (GetId e') re after eq_refl) as (rest & Hrest).
  rewrite (Get_found store s o (GetId e') (IPtr (TStruct fts) (Some cur)) re rest _ Hs Ho
             (proj1 (andb_prop _ _ Hv)) Hf').
  - by apply (fromEvent_Marshal (self e')).
  - by rewrite collection_Close, collection_set, matching_by_id_app.
Qed.

Lemma Update_replaces_the_envelope_witness :
  exists m',
    MongoEventStore.Update testing.store testing.updated1 testing.server2
      = (Returned None, m')
    /\ mgo.collection
         (MongoEventStore.C (Options.mk testing.mongoAddress "event-sourcing-test" "tests")) m'
       = [{| Id := testing.id1; InstanceId := testing.instance1; Type_ := 101;
             Raw := Some (bson.BDoc [("id", bson.BOid testing.id1);
                                     ("instanceid", bson.BOid testing.instance1);
                                     ("string", bson.BStr "UPDATED")]) |};
          {| Id := testing.id2; InstanceId := testing.instance1; Type_ := 101;
             Raw := Some (bson.BDoc [("id", bson.BOid testing.id2);
                                     ("instanceid", bson.BOid testing.instance1);
                                     ("string", bson.BStr "This test 1")]) |}]
    /\ (MongoEventStore.Get testing.store testing.id1
          (IPtr testing.testEvent (Some (zero testing.testEvent))) m').1
       = (IPtr testing.testEvent
            (Some (testing.testEvent_value testing.id1 testing.instance1 "UPDATED")),
          Returned None).
Proof.
  destruct (Update_replaces_the_envelope testing.store
              {| mgo.addr := testing.mongoAddress |}
              (Options.mk testing.mongoAddress "event-sourcing-test" "tests")
              testing.updated1
              [("id", bson.BOid testing.id1);
               ("instanceid", bson.BOid testing.instance1);
               ("string", bson.BStr "UPDATED")]
              [("Id", TObjectId); ("InstanceId", TObjectId); ("String", TString)]
              (testing.testEvent_value testing.id1 testing.instance1 "UPDATED")
              (zero testing.testEvent) testing.server2
              eq_refl eq_refl eq_refl eq_refl eq_refl eq_refl eq_refl eq_refl)
    as (m' & before & old & after & Hu & Hc & Hb & Hold & Hc' & Hg).
  exists m'.
  assert (m' = (MongoEventStore.Update testing.store testing.updated1 testing.server2).2)
    as Hm' by (by rewrite Hu).
  split; [exact Hu|]. split.
  - rewrite Hm'. reflexivity.
  - apply Hg. rewrite Hm'. reflexivity.
Defined.

(** * Further properties of the operations *)

(** ** Sessions and round trips *)

Lemma Close_Copy (m : Mongo) : mgo.Close (mgo.Copy m) = m.
Proof. by destruct m. Qed.

(** X1: [Create], [Update] and [Get] leave as many sessions open as they
    found, on every path: validation error, codec error, driver error,
    success and panic. *)
Theorem scoped_operations_release_their_session store e id out (m : Mongo) :
  mgo.open_sessions (MongoEventStore.Create store e m).2 = mgo.open_sessions m
  /\ mgo.open_sessions (MongoEventStore.Update store e m).2 = mgo.open_sessions m
  /\ mgo.open_sessions (MongoEventStore.Get store id out m).2 = mgo.open_sessions m.
Proof.
  split; [apply Create_sessions|split]; [apply Update_sessions_balanced|apply Get_sessions].
Qed.

(** X2: on a store with a session, [list] leaves one more session open
    every time it accepts its destination, whether the query then succeeds,
    fails or the loop panics; it leaves none when it refuses the
    destination. *)
Theorem list_leaves_one_session_per_accepted_call store s out f (m : Mongo) :
  Session store = Some s ->
  mgo.open_sessions (MongoEventStore.list store out f m).2
  = if MongoEventStore.not_slice_ptr out then mgo.open_sessions m
    else S (mgo.open_sessions m).
Proof.
  intros Hs. destruct (MongoEventStore.not_slice_ptr out) eqn:Hg.
  - by rewrite list_refuses.
  - by apply (list_sessions store s).
Qed.

Lemma list_leaves_one_session_witness :
  mgo.open_sessions
    (MongoEventStore.list testing.store
       (IPtr (TSlice testing.testEvent) (Some (VSlice []))) None testing.unreachable).2
  = S (mgo.open_sessions testing.unreachable).
Proof.
  exact (list_leaves_one_session_per_accepted_call testing.store
           {| mgo.addr := testing.mongoAddress |}
           (IPtr (TSlice testing.testEvent) (Some (VSlice []))) None
           testing.unreachable eq_refl).
Defined.

Lemma Insert_round_trips (ns : string * string) (d : rawEvent) (m : Mongo) :
  mgo.round_trips (mgo.Insert Id ns d m).2 = S (mgo.round_trips m).
Proof.
  unfold mgo.Insert, mgo.round_trip.
  destruct (mgo.next_fault m); [reflexivity|].
  match goal with |- context [if ?b then _ else _] => destruct b end; reflexivity.
Qed.

Lemma Update_round_trips (ns : string * string) id (d : rawEvent) (m : Mongo) :
  mgo.round_trips (mgo.Update Id ns id d m).2 = S (mgo.round_trips m).
Proof.
  unfold mgo.Update, mgo.round_trip.
  destruct (mgo.next_fault m); [reflexivity|].
  match goal with |- context [match ?b with Some _ => _ | None => _ end] => destruct b end;
    reflexivity.
Qed.

Lemma One_round_trips (ns : string * string) (f : mgo.M rawEvent) d (m : Mongo) :
  mgo.round_trips (mgo.One ns f d m).2 = S (mgo.round_trips m).
Proof.
  unfold mgo.One, mgo.round_trip.
  destruct (mgo.next_fault m); [reflexivity|].
  match goal with |- context [match ?b with [] => _ | _ :: _ => _ end] => destruct b end;
    reflexivity.
Qed.

Lemma All_round_trips (ns : string * string) (f : mgo.M rawEvent) (m : Mongo) :
  mgo.round_trips (mgo.All ns f m).2 = S (mgo.round_trips m).
Proof.
  unfold mgo.All, mgo.round_trip. destruct (mgo.next_fault m); reflexivity.
Qed.

(** X3: every operation makes at most one round trip to the server, and
    none at all when [Create] or [Update] get an invalid event or [list] a
    destination it refuses. *)
Theorem at_most_one_round_trip store e id out f (m : Mongo) :
  (mgo.round_trips (MongoEventStore.Create store e m).2 <= S (mgo.round_trips m))%nat
  /\ (mgo.round_trips (MongoEventStore.Update store e m).2 <= S (mgo.round_trips m))%nat
  /\ (mgo.round_trips (MongoEventStore.Get store id out m).2 <= S (mgo.round_trips m))%nat
  /\ (mgo.round_trips (MongoEventStore.list store out f m).2 <= S (mgo.round_trips m))%nat
  /\ (validateEvent e <> None ->
      mgo.round_trips (MongoEventStore.Create store e m).2 = mgo.round_trips m
      /\ mgo.round_trips (MongoEventStore.Update store e m).2 = mgo.round_trips m)
  /\ (not_a_slice_reference out ->
      mgo.round_trips (MongoEventStore.list store out f m).2 = mgo.round_trips m).
Proof.
  repeat split.
  - unfold MongoEventStore.Create, MongoEventStore.scoped.
    destruct (validateEvent e); [simpl; lia|].
    destruct (Session store); [|simpl; lia].
    destruct (buildEvent e) as [re [err|]]; [simpl; lia|].
    destruct (options store) as [o|]; [|simpl; lia].
    pose proof (Insert_round_trips (MongoEventStore.C o) re (mgo.Copy m)) as H.
    destruct (mgo.Insert Id (MongoEventStore.C o) re (mgo.Copy m)). simpl in *. lia.
  - unfold MongoEventStore.Update, MongoEventStore.scoped.
    destruct (validateEvent e); [simpl; lia|].
    destruct (Session store); [|simpl; lia].
    destruct (buildEvent e) as [re [err|]]; [simpl; lia|].
    destruct (options store) as [o|]; [|simpl; lia].
    pose proof (Update_round_trips (MongoEventStore.C o) (Id re) re (mgo.Copy m)) as H.
    destruct (mgo.Update Id (MongoEventStore.C o) (Id re) re (mgo.Copy m)). simpl in *. lia.
  - unfold MongoEventStore.Get, MongoEventStore.scoped.
    destruct (Session store); [|simpl; lia].
    destruct (options store) as [o|]; [|simpl; lia].
    destruct (MongoEventStore.by_id id) as [selector|]; [|simpl; lia].
    match goal with |- context [mgo.One ?ns ?g ?d (mgo.Copy m)] =>
      pose proof (One_round_trips ns g d (mgo.Copy m)) as H;
      destruct (mgo.One ns g d (mgo.Copy m)) as [[x [err|]] m']
    end; simpl in *; lia.
  - unfold MongoEventStore.list.
    destruct (MongoEventStore.not_slice_ptr out); [simpl; lia|].
    destruct (Session store); [|simpl; lia].
    destruct (options store) as [o|]; [|simpl; lia].
    pose proof (All_round_trips (MongoEventStore.C o) f (mgo.Copy m)) as H.
    destruct (mgo.All (MongoEventStore.C o) f (mgo.Copy m)) as [[res [err|]] m'];
      [simpl in *; lia|].
    destruct out as [| |[] cell]; simpl in *; try lia.
    destruct (MongoEventStore.list_loop elem res cell). simpl. lia.
  - unfold MongoEventStore.Create. by destruct (validateEvent e).
  - unfold MongoEventStore.Update. by destruct (validateEvent e).
  - intros Hout%not_slice_ptr_spec. by rewrite list_refuses.
Qed.

Lemma at_most_one_round_trip_witness :
  mgo.round_trips
    (MongoEventStore.Create testing.store (testing.new_testEvent "" "" "x")
       testing.server2).2
  = mgo.round_trips testing.server2
  /\ mgo.round_trips (MongoEventStore.list testing.store INil None testing.server2).2
     = mgo.round_trips testing.server2.
Proof.
  pose proof (at_most_one_round_trip testing.store (testing.new_testEvent "" "" "x")
                testing.id1 INil None testing.server2)
    as (_ & _ & _ & _ & Hv & Hl).
  split.
  - apply Hv. discriminate.
  - apply Hl. by left.
Defined.

(** ** Errors of the write path *)

(** What [Create] does once the event is valid and marshalled. *)
Lemma Create_unfold store s o e d (m : Mongo) :
  Session store = Some s -> options store = Some o ->
  bson.Valid (GetId e) && bson.Valid (GetInstanceId e) = true ->
  bson.Marshal (self e) = bson.Ok d ->
  MongoEventStore.Create store e m =
    let re := {| Id := GetId e; InstanceId := GetInstanceId e;
                 Type_ := GetType e; Raw := Some (bson.BDoc d) |} in
    ((Returned (MgoError <$> (mgo.Insert Id (MongoEventStore.C o) re (mgo.Copy m)).1)),
     mgo.Close (mgo.Insert Id (MongoEventStore.C o) re (mgo.Copy m)).2).
Proof.
  intros Hs Ho Hv Hm. unfold MongoEventStore.Create, MongoEventStore.scoped.
  rewrite (validateEvent_valid e Hv), Hs, (buildEvent_Marshal e d Hm), Ho.
  by destruct (mgo.Insert _ _ _ _).
Qed.

Lemma Update_unfold store s o e d (m : Mongo) :
  Session store = Some s -> options store = Some o ->
  bson.Valid (GetId e) && bson.Valid (GetInstanceId e) = true ->
  bson.Marshal (self e) = bson.Ok d ->
  MongoEventStore.Update store e m =
    let re := {| Id := GetId e; InstanceId := GetInstanceId e;
                 Type_ := GetType e; Raw := Some (bson.BDoc d) |} in
    ((Returned (MgoError <$>
                  (mgo.Update Id (MongoEventStore.C o) (GetId e) re (mgo.Copy m)).1)),
     mgo.Close (mgo.Update Id (MongoEventStore.C o) (GetId e) re (mgo.Copy m)).2).
Proof.
  intros Hs Ho Hv Hm. unfold MongoEventStore.Update, MongoEventStore.scoped.
  rewrite (validateEvent_valid e Hv), Hs, (buildEvent_Marshal e d Hm), Ho.
  by destruct (mgo.Update _ _ _ _ _).
Qed.

(** X4: [Create] of a valid event whose identifier is already stored
    returns the driver's duplicate-key error and writes nothing: every
    collection is as it was, so the envelope stored first stays. *)
Theorem Create_of_a_stored_identifier_is_refused store s o e d (m : Mongo) :
  Session store = Some s -> options store = Some o ->
  bson.Valid (GetId e) && bson.Valid (GetInstanceId e) = true ->
  bson.Marshal (self e) = bson.Ok d ->
  mgo.next_fault m = None ->
  existsb (mgo.has_id Id (GetId e)) (mgo.collection (MongoEventStore.C o) m) = true ->
  (MongoEventStore.Create store e m).1 = Returned (Some (MgoError mgo.ErrDuplicateKey))
  /\ mgo.collections (MongoEventStore.Create store e m).2 = mgo.collections m.
Proof.
  intros Hs Ho Hv Hm Hf Hex. rewrite (Create_unfold store s o e d) by done.
  cbv zeta. unfold mgo.Insert, mgo.round_trip.
  change (mgo.next_fault (mgo.Copy m)) with (mgo.next_fault m). rewrite Hf.
  match goal with |- context [if ?b then _ else _] =>
    change b with (existsb (mgo.has_id Id (GetId e))
                     (mgo.collection (MongoEventStore.C o) m)) end.
  by rewrite Hex.
Qed.

Lemma Create_of_a_stored_identifier_witness :
  (MongoEventStore.Create testing.store testing.updated1 testing.server2).1
  = Returned (Some (MgoError mgo.ErrDuplicateKey))
  /\ mgo.collections (MongoEventStore.Create testing.store testing.updated1 testing.server2).2
     = mgo.collections testing.server2.
Proof.
  exact (Create_of_a_stored_identifier_is_refused testing.store
           {| mgo.addr := testing.mongoAddress |}
           (Options.mk testing.mongoAddress "event-sourcing-test" "tests")
           testing.updated1
           [("id", bson.BOid testing.id1);
            ("instanceid", bson.BOid testing.instance1);
            ("string", bson.BStr "UPDATED")]
           testing.server2 eq_refl eq_refl eq_refl eq_refl eq_refl eq_refl).
Defined.

Lemma replace_first_none id (d : rawEvent) (c : list rawEvent) :
  existsb (mgo.has_id Id id) c = false -> mgo.replace_first Id id d c = None.
Proof.
  induction c as [|x c IH]; simpl; [done|].
  intros [-> Hc]%orb_false_elim. by rewrite IH.
Qed.

(** X5: [Update] of a valid event whose identifier is not stored returns
    the driver's not-found error as it is (not the package's [ErrNotFound]
    that [Get] returns) and writes nothing: there is no upsert. *)
Theorem Update_without_a_match_writes_nothing store s o e d (m : Mongo) :
  Session store = Some s -> options store = Some o ->
  bson.Valid (GetId e) && bson.Valid (GetInstanceId e) = true ->
  bson.Marshal (self e) = bson.Ok d ->
  mgo.next_fault m = None ->
  existsb (mgo.has_id Id (GetId e)) (mgo.collection (MongoEventStore.C o) m) = false ->
  (MongoEventStore.Update store e m).1 = Returned (Some (MgoError mgo.ErrNotFound))
  /\ (MongoEventStore.Update store e m).1 <> Returned (Some ErrNotFound)
  /\ mgo.collections (MongoEventStore.Update store e m).2 = mgo.collections m.
Proof.
  intros Hs Ho Hv Hm Hf Hex. rewrite (Update_unfold store s o e d) by done.
  cbv zeta. unfold mgo.Update, mgo.round_trip.
  change (mgo.next_fault (mgo.Copy m)) with (mgo.next_fault m). rewrite Hf.
  match goal with |- context [mgo.replace_first Id ?i ?x ?c] =>
    change (mgo.replace_first Id i x c)
      with (mgo.replace_first Id (GetId e) x (mgo.collection (MongoEventStore.C o) m))
  end.
  by rewrite replace_first_none.
Qed.

Lemma Update_without_a_match_witness :
  (MongoEventStore.Update testing.store testing.event2
     (MongoEventStore.Create testing.store testing.event1 testing.server).2).1
  = Returned (Some (MgoError mgo.ErrNotFound)).
Proof.
  exact (proj1 (Update_without_a_match_writes_nothing testing.store
                  {| mgo.addr := testing.mongoAddress |}
                  (Options.mk testing.mongoAddress "event-sourcing-test" "tests")
                  testing.event2
                  [("id", bson.BOid testing.id2);
                   ("instanceid", bson.BOid testing.instance1);
                   ("string", bson.BStr "This test 1")]
                  (MongoEventStore.Create testing.store testing.event1 testing.server).2
                  eq_refl eq_refl eq_refl eq_refl eq_refl eq_refl)).
Defined.

(** X6: when a valid event does not marshal, [Create] and [Update] return
    the codec's error after copying and closing a session, without any round
    trip: the server is exactly as it was. *)
Theorem marshal_failure_stops_before_the_server store s e err (m : Mongo) :
  Session store = Some s ->
  bson.Valid (GetId e) && bson.Valid (GetInstanceId e) = true ->
  bson.Marshal (self e) = bson.Err err ->
  MongoEventStore.Create store e m = (Returned (Some (BsonError err)), m)
  /\ MongoEventStore.Update store e m = (Returned (Some (BsonError err)), m).
Proof.
  intros Hs Hv Hm.
  unfold MongoEventStore.Create, MongoEventStore.Update, MongoEventStore.scoped.
  rewrite (validateEvent_valid e Hv), Hs. unfold buildEvent, toBSONRaw. rewrite Hm.
  by rewrite Close_Copy.
Qed.

Lemma marshal_failure_witness :
  MongoEventStore.Create testing.store
    {| self := IPtr testing.testEvent
                 (Some (testing.testEvent_value testing.id1 "short" "x"));
       GetId := testing.id1; GetInstanceId := testing.instance1; GetType := 101 |}
    testing.server2
  = (Returned (Some (BsonError (bson.ErrObjectIdLength 5))), testing.server2).
Proof.
  exact (proj1 (marshal_failure_stops_before_the_server testing.store
                  {| mgo.addr := testing.mongoAddress |}
                  {| self := IPtr testing.testEvent
                               (Some (testing.testEvent_value testing.id1 "short" "x"));
                     GetId := testing.id1; GetInstanceId := testing.instance1;
                     GetType := 101 |}
                  (bson.ErrObjectIdLength 5) testing.server2
                  eq_refl eq_refl eq_refl)).
Defined.

(** X7: when the round trip fails, [Create] and [Update] return the
    driver's error as it is and no collection changes. *)
Theorem driver_failure_is_returned_by_writes store s o e d err (m : Mongo) :
  Session store = Some s -> options store = Some o ->
  bson.Valid (GetId e) && bson.Valid (GetInstanceId e) = true ->
  bson.Marshal (self e) = bson.Ok d ->
  mgo.next_fault m = Some err ->
  (MongoEventStore.Create store e m).1 = Returned (Some (MgoError err))
  /\ mgo.collections (MongoEventStore.Create store e m).2 = mgo.collections m
  /\ (MongoEventStore.Update store e m).1 = Returned (Some (MgoError err))
  /\ mgo.collections (MongoEventStore.Update store e m).2 = mgo.collections m.
Proof.
  intros Hs Ho Hv Hm Hf.
  rewrite (Create_unfold store s o e d), (Update_unfold store s o e d) by done.
  cbv zeta. unfold mgo.Insert, mgo.Update, mgo.round_trip.
  change (mgo.next_fault (mgo.Copy m)) with (mgo.next_fault m). by rewrite Hf.
Qed.

Lemma driver_failure_is_returned_by_writes_witness :
  (MongoEventStore.Create testing.store testing.event1 testing.unreachable).1
  = Returned (Some (MgoError (mgo.ErrBackend "connection refused"))).
Proof.
  exact (proj1 (driver_failure_is_returned_by_writes testing.store
                  {| mgo.addr := testing.mongoAddress |}
                  (Options.mk testing.mongoAddress "event-sourcing-test" "tests")
                  testing.event1
                  [("id", bson.BOid testing.id1);
                   ("instanceid", bson.BOid testing.instance1);
                   ("string", bson.BStr "This test 0")]
                  (mgo.ErrBackend "connection refused") testing.unreachable
                  eq_refl eq_refl eq_refl eq_refl eq_refl)).
Defined.

(** X8: when the query fails, [list] returns the driver's error as it is
    and the destination is untouched. *)
Theorem list_returns_the_query_failure store s o out f err (m : Mongo) :
  Session store = Some s -> options store = Some o ->
  MongoEventStore.not_slice_ptr out = false ->
  mgo.next_fault m = Some err ->
  (MongoEventStore.list store out f m).1 = (out, Returned (Some (MgoError err))).
Proof.
  intros Hs Ho Hg Hf. unfold MongoEventStore.list. rewrite Hg, Hs, Ho.
  by rewrite (All_fails (MongoEventStore.C o) f (mgo.Copy m) err).
Qed.

Lemma list_returns_the_query_failure_witness :
  (MongoEventStore.list testing.store
     (IPtr (TSlice testing.testEvent) (Some (VSlice []))) None testing.unreachable).1
  = (IPtr (TSlice testing.testEvent) (Some (VSlice [])),
     Returned (Some (MgoError (mgo.ErrBackend "connection refused")))).
Proof.
  exact (list_returns_the_query_failure testing.store
           {| mgo.addr := testing.mongoAddress |}
           (Options.mk testing.mongoAddress "event-sourcing-test" "tests")
           (IPtr (TSlice testing.testEvent) (Some (VSlice []))) None
           (mgo.ErrBackend "connection refused") testing.unreachable
           eq_refl eq_refl eq_refl eq_refl).
Defined.

(** ** What the operations leave alone *)

Lemma One_collections (ns : string * string) (f : mgo.M rawEvent) d (m : Mongo) :
  mgo.collections (mgo.One ns f d m).2 = mgo.collections m
  /\ mgo.indexes (mgo.One ns f d m).2 = mgo.indexes m.
Proof.
  unfold mgo.One, mgo.round_trip.
  destruct (mgo.next_fault m); [done|].
  match goal with |- context [match ?b with [] => _ | _ :: _ => _ end] => destruct b end;
    done.
Qed.

Lemma All_collections (ns : string * string) (f : mgo.M rawEvent) (m : Mongo) :
  mgo.collections (mgo.All ns f m).2 = mgo.collections m
  /\ mgo.indexes (mgo.All ns f m).2 = mgo.indexes m.
Proof. unfold mgo.All, mgo.round_trip. by destruct (mgo.next_fault m). Qed.

(** X9: [Get], [List] and [ListFiltered] never write: whatever the store,
    the destination, the filter and the server's answer, every collection
    and every index is as it was. *)
Theorem reads_never_write store id out f (m : Mongo) :
  mgo.collections (MongoEventStore.Get store id out m).2 = mgo.collections m
  /\ mgo.indexes (MongoEventStore.Get store id out m).2 = mgo.indexes m
  /\ mgo.collections (MongoEventStore.List store out m).2 = mgo.collections m
  /\ mgo.indexes (MongoEventStore.List store out m).2 = mgo.indexes m
  /\ mgo.collections (MongoEventStore.ListFiltered store out f m).2 = mgo.collections m
  /\ mgo.indexes (MongoEventStore.ListFiltered store out f m).2 = mgo.indexes m.
Proof.
  assert (forall g, mgo.collections (MongoEventStore.list store out g m).2
                    = mgo.collections m
                    /\ mgo.indexes (MongoEventStore.list store out g m).2 = mgo.indexes m)
    as Hlist.
  { intros g. unfold MongoEventStore.list.
    destruct (MongoEventStore.not_slice_ptr out); [done|].
    destruct (Session store); [|done].
    destruct (options store) as [o|]; [|done].
    pose proof (All_collections (MongoEventStore.C o) g (mgo.Copy m)) as H.
    destruct (mgo.All (MongoEventStore.C o) g (mgo.Copy m)) as [[res [err|]] m'];
      [exact H|].
    destruct out as [| |[] cell]; try exact H.
    by destruct (MongoEventStore.list_loop elem res cell). }
  destruct (Hlist None) as [Hl1 Hl2]. destruct (Hlist f) as [Hl3 Hl4].
  repeat split; try done.
  - unfold MongoEventStore.Get, MongoEventStore.scoped.
    destruct (Session store); [|done].
    destruct (options store) as [o|]; [|done].
    destruct (MongoEventStore.by_id id) as [selector|]; [|done].
    match goal with |- context [mgo.One ?ns ?g ?d (mgo.Copy m)] =>
      pose proof (One_collections ns g d (mgo.Copy m)) as [H _];
      destruct (mgo.One ns g d (mgo.Copy m)) as [[x [err|]] m']
    end; exact H.
  - unfold MongoEventStore.Get, MongoEventStore.scoped.
    destruct (Session store); [|done].
    destruct (options store) as [o|]; [|done].
    destruct (MongoEventStore.by_id id) as [selector|]; [|done].
    match goal with |- context [mgo.One ?ns ?g ?d (mgo.Copy m)] =>
      pose proof (One_collections ns g d (mgo.Copy m)) as [_ H];
      destruct (mgo.One ns g d (mgo.Copy m)) as [[x [err|]] m']
    end; exact H.
Qed.

Lemma collection_set_ne (ns ns' : string * string) (c : list rawEvent) (m : Mongo) :
  ns' <> ns -> mgo.collection ns' (mgo.set_collection ns c m) = mgo.collection ns' m.
Proof.
  intros Hne. unfold mgo.collection, mgo.set_collection. simpl.
  by rewrite lookup_insert_ne.
Qed.

(** What the collection [ns'] holds after an [Insert] into [ns]. *)
Lemma Insert_collection (ns ns' : string * string) (d : rawEvent) (m : Mongo) :
  mgo.collection ns' (mgo.Insert Id ns d m).2
  = if bool_decide (ns' = ns) then
      match (mgo.Insert Id ns d m).1 with
      | None => mgo.collection ns m ++ [d]
      | Some _ => mgo.collection ns m
      end
    else mgo.collection ns' m.
Proof.
  unfold mgo.Insert, mgo.round_trip.
  destruct (mgo.next_fault m); simpl.
  - case_bool_decide; by subst.
  - match goal with |- context [if existsb ?p ?c then _ else _] =>
      destruct (existsb p c) end; simpl.
    + case_bool_decide; by subst.
    + case_bool_decide as Hns.
      * subst. by rewrite collection_set.
      * by rewrite collection_set_ne.
Qed.

(** What the collection [ns'] holds after an [Update] in [ns]. *)
Lemma Update_collection (ns ns' : string * string) id (d : rawEvent) (m : Mongo) :
  mgo.collection ns' (mgo.Update Id ns id d m).2
  = if bool_decide (ns' = ns) then
      match (mgo.Update Id ns id d m).1 with
      | None => default (mgo.collection ns m) (mgo.replace_first Id id d (mgo.collection ns m))
      | Some _ => mgo.collection ns m
      end
    else mgo.collection ns' m.
Proof.
  unfold mgo.Update, mgo.round_trip.
  destruct (mgo.next_fault m); simpl.
  - case_bool_decide; by subst.
  - change (mgo.collection ns {| mgo.collections := mgo.collections m;
                                 mgo.indexes := mgo.indexes m;
                                 mgo.open_sessions := mgo.open_sessions m;
                                 mgo.round_trips := S (mgo.round_trips m);
                                 mgo.faults := tail (mgo.faults m) |})
      with (mgo.collection ns m).
    destruct (mgo.replace_first Id id d (mgo.collection ns m)) as [c|]; simpl.
    + case_bool_decide as Hns.
      * subst. by rewrite collection_set.
      * by rewrite collection_set_ne.
    + case_bool_decide; by subst.
Qed.

(** The collection [ns] after [Create]: as it was, or with one envelope
    more at the end, which [buildEvent] made of a valid event. *)
Lemma Create_collection store e ns (m : Mongo) :
  mgo.collection ns (MongoEventStore.Create store e m).2 = mgo.collection ns m
  \/ exists o re,
       options store = Some o /\ ns = MongoEventStore.C o
       /\ validateEvent e = None /\ buildEvent e = (re, None)
       /\ existsb (mgo.has_id Id (Id re)) (mgo.collection ns m) = false
       /\ mgo.collection ns (MongoEventStore.Create store e m).2
          = mgo.collection ns m ++ [re].
Proof.
  unfold MongoEventStore.Create, MongoEventStore.scoped.
  destruct (validateEvent e) eqn:Hv; [by left|].
  destruct (Session store); [|by left].
  destruct (buildEvent e) as [re [err|]] eqn:Hb; [by left|].
  destruct (options store) as [o|]; [|by left].
  pose proof (Insert_collection (MongoEventStore.C o) ns re (mgo.Copy m)) as Hc.
  assert ((mgo.Insert Id (MongoEventStore.C o) re (mgo.Copy m)).1 = None ->
          existsb (mgo.has_id Id (Id re)) (mgo.collection (MongoEventStore.C o) m) = false)
    as Hfresh.
  { unfold mgo.Insert, mgo.round_trip. destruct (mgo.next_fault (mgo.Copy m)); [done|].
    match goal with |- context [if ?b then _ else _] => destruct b eqn:Hex end; [done|].
    intros _. exact Hex. }
  destruct (decide (ns = MongoEventStore.C o)) as [Hns|Hns];
    [rewrite (bool_decide_eq_true_2 _ Hns) in Hc; subst ns
    |rewrite (bool_decide_eq_false_2 _ Hns) in Hc];
    destruct (mgo.Insert Id (MongoEventStore.C o) re (mgo.Copy m)) as [[err|] m'];
    cbn [fst snd] in *; rewrite collection_Close, Hc; try (by left).
  right. exists o, re. repeat split; try done. by apply Hfresh.
Qed.

(** The collection [ns] after [Update]: as it was, or with the first
    envelope of the identifier replaced by the one [buildEvent] made. *)
Lemma Update_collection_cases store e ns (m : Mongo) :
  mgo.collection ns (MongoEventStore.Update store e m).2 = mgo.collection ns m
  \/ exists o re before old after,
       options store = Some o /\ ns = MongoEventStore.C o
       /\ validateEvent e = None /\ buildEvent e = (re, None)
       /\ mgo.collection ns m = before ++ old :: after
       /\ existsb (mgo.has_id Id (Id re)) before = false
       /\ Id old = Id re
       /\ mgo.collection ns (MongoEventStore.Update store e m).2 = before ++ re :: after.
Proof.
  unfold MongoEventStore.Update, MongoEventStore.scoped.
  destruct (validateEvent e) eqn:Hv; [by left|].
  destruct (Session store); [|by left].
  destruct (buildEvent e) as [re [err|]] eqn:Hb; [by left|].
  destruct (options store) as [o|]; [|by left].
  pose proof (Update_collection (MongoEventStore.C o) ns (Id re) re (mgo.Copy m)) as Hc.
  destruct (decide (ns = MongoEventStore.C o)) as [Hns|Hns];
    [rewrite (bool_decide_eq_true_2 _ Hns) in Hc; subst ns
    |rewrite (bool_decide_eq_false_2 _ Hns) in Hc];
    destruct (mgo.Update Id (MongoEventStore.C o) (Id re) re (mgo.Copy m)) as [[err|] m'];
    cbn [fst snd] in *; rewrite collection_Close, Hc; try (by left).
  change (mgo.collection (MongoEventStore.C o) (mgo.Copy m))
    with (mgo.collection (MongoEventStore.C o) m).
  destruct (existsb (mgo.has_id Id (Id re)) (mgo.collection (MongoEventStore.C o) m))
    eqn:Hex.
  - destruct (replace_first_spec (Id re) re _ Hex)
      as (before & old & after & Hcoll & Hb' & Hold & Hr).
    right. exists o, re, before, old, after. rewrite Hr. by repeat split.
  - left. by rewrite replace_first_none.
Qed.

(** X10: [Create] and [Update] write to the collection the options name
    and to no other: any other collection of the server is as it was. *)
Theorem writes_stay_in_the_collection_of_the_store store o e ns (m : Mongo) :
  options store = Some o ->
  ns <> MongoEventStore.C o ->
  mgo.collection ns (MongoEventStore.Create store e m).2 = mgo.collection ns m
  /\ mgo.collection ns (MongoEventStore.Update store e m).2 = mgo.collection ns m.
Proof.
  intros Ho Hns. split.
  - destruct (Create_collection store e ns m) as [H|(o' & re & Ho' & Hn & _)]; [done|].
    rewrite Ho in Ho'. by injection Ho' as <-.
  - destruct (Update_collection_cases store e ns m)
      as [H|(o' & re & b & old & a & Ho' & Hn & _)]; [done|].
    rewrite Ho in Ho'. by injection Ho' as <-.
Qed.

Lemma writes_stay_in_the_collection_witness :
  mgo.collection ("event-sourcing-test", "other")
    (MongoEventStore.Create testing.store testing.event1 testing.server).2
  = mgo.collection ("event-sourcing-test", "other") testing.server.
Proof.
  refine (proj1 (writes_stay_in_the_collection_of_the_store testing.store
                   (Options.mk testing.mongoAddress "event-sourcing-test" "tests")
                   testing.event1 ("event-sourcing-test", "other") testing.server
                   eq_refl _)).
  discriminate.
Defined.

(** ** Invariants of the collection *)

Lemma buildEvent_wellformed e re :
  validateEvent e = None -> buildEvent e = (re, None) -> wellformed re = true.
Proof.
  intros Hv (d & _ & ->)%buildEvent_ok. unfold wellformed. simpl.
  unfold validateEvent in Hv.
  destruct (bson.Valid (GetId e)); [|done].
  by destruct (bson.Valid (GetInstanceId e)).
Qed.

(** X11: [Create] and [Update] keep every collection made of envelopes
    with two valid identifiers and a document as payload: what they write is
    such an envelope, whatever the event and however the call ends. *)
Theorem stored_envelopes_stay_wellformed store e ns (m : Mongo) :
  forallb wellformed (mgo.collection ns m) = true ->
  forallb wellformed (mgo.collection ns (MongoEventStore.Create store e m).2) = true
  /\ forallb wellformed (mgo.collection ns (MongoEventStore.Update store e m).2) = true.
Proof.
  intros Hwf. split.
  - destruct (Create_collection store e ns m)
      as [->|(o & re & _ & _ & Hv & Hb & _ & ->)]; [done|].
    rewrite forallb_app, Hwf. simpl. by rewrite (buildEvent_wellformed e re).
  - destruct (Update_collection_cases store e ns m)
      as [->|(o & re & before & old & after & _ & _ & Hv & Hb & Hc & _ & _ & ->)]; [done|].
    rewrite Hc, forallb_app in Hwf. simpl in Hwf.
    apply andb_prop in Hwf as [Hbefore [_ Hafter]%andb_prop].
    rewrite forallb_app, Hbefore. simpl.
    by rewrite (buildEvent_wellformed e re), Hafter.
Qed.

Lemma stored_envelopes_stay_wellformed_witness :
  forallb wellformed
    (mgo.collection ("event-sourcing-test", "tests")
       (MongoEventStore.Update testing.store testing.updated1 testing.server2).2) = true.
Proof.
  exact (proj2 (stored_envelopes_stay_wellformed testing.store testing.updated1
                  ("event-sourcing-test", "tests") testing.server2 eq_refl)).
Defined.

Lemma existsb_has_id_false id (c : list rawEvent) :
  existsb (mgo.has_id Id id) c = false -> id ∉ map Id c.
Proof.
  induction c as [|x c IH]; simpl; [intros _; apply not_elem_of_nil|].
  intros [Hx Hc]%orb_false_elim. apply not_elem_of_cons. split; [|auto].
  unfold mgo.has_id in Hx. apply String.eqb_neq in Hx. congruence.
Qed.

(** X12: [Create] and [Update] keep the identifiers of a collection
    distinct: [Create] appends only an identifier that is not stored, and
    [Update] replaces an envelope by one with the same identifier. *)
Theorem identifiers_stay_distinct store e ns (m : Mongo) :
  NoDup (map Id (mgo.collection ns m)) ->
  NoDup (map Id (mgo.collection ns (MongoEventStore.Create store e m).2))
  /\ NoDup (map Id (mgo.collection ns (MongoEventStore.Update store e m).2)).
Proof.
  intros Hnd. split.
  - destruct (Create_collection store e ns m)
      as [->|(o & re & _ & _ & _ & _ & Hfresh & ->)]; [done|].
    rewrite map_app. simpl. apply NoDup_app. repeat split; [done| |apply NoDup_singleton].
    intros id Hin [->|Hnil]%elem_of_cons; [|by apply elem_of_nil in Hnil].
    by apply existsb_has_id_false in Hfresh.
  - destruct (Update_collection_cases store e ns m)
      as [->|(o & re & before & old & after & _ & _ & _ & _ & Hc & _ & Hold & ->)]; [done|].
    rewrite Hc in Hnd. rewrite map_app in *. simpl in *. by rewrite <- Hold.
Qed.

Lemma identifiers_stay_distinct_witness :
  NoDup (map Id (mgo.collection ("event-sourcing-test", "tests") testing.server2)).
Proof.
  refine (proj1 (identifiers_stay_distinct testing.store testing.event2
                   ("event-sourcing-test", "tests")
                   (MongoEventStore.Create testing.store testing.event1 testing.server).2
                   _)).
  apply NoDup_singleton.
Defined.

(** X13: [Update] never changes how many envelopes a collection holds, and
    [Create] adds one envelope or none. *)
Theorem envelope_count store e ns (m : Mongo) :
  length (mgo.collection ns (MongoEventStore.Update store e m).2)
  = length (mgo.collection ns m)
  /\ (length (mgo.collection ns (MongoEventStore.Create store e m).2)
      = length (mgo.collection ns m)
      \/ length (mgo.collection ns (MongoEventStore.Create store e m).2)
         = S (length (mgo.collection ns m))).
Proof.
  split.
  - destruct (Update_collection_cases store e ns m)
      as [->|(o & re & before & old & after & _ & _ & _ & _ & -> & _ & _ & ->)]; [done|].
    by rewrite !length_app.
  - destruct (Create_collection store e ns m)
      as [->|(o & re & _ & _ & _ & _ & _ & ->)]; [by left|].
    right. rewrite length_app. simpl. lia.
Qed.

(** ** [Init] and stores without a session *)

(** X14: when the server answers the dial and the index request, [Init]
    returns nil; the store has a session on the address of the options and
    the options; the index on [instanceid] exists for the store's
    collection; two round trips were made, the dialled session stays open
    and no collection changed. *)
Theorem Init_on_an_answering_server store opts (m : Mongo) :
  mgo.next_fault m = None ->
  mgo.next_fault (mgo.round_trip m).2 = None ->
  let o := newOptions opts in
  let r := MongoEventStore.Init store opts m in
  r.1 = ({| Session := Some {| mgo.addr := Options.Address o |}; options := Some o |}, None)
  /\ (Options.DatabaseName o, Options.CollectionName o, ["instanceid"]) ∈ mgo.indexes r.2
  /\ mgo.round_trips r.2 = S (S (mgo.round_trips m))
  /\ mgo.open_sessions r.2 = S (mgo.open_sessions m)
  /\ mgo.collections r.2 = mgo.collections m.
Proof.
  intros Hf1 Hf2 o r. subst o r.
  unfold MongoEventStore.Init, mgo.Dial, mgo.round_trip. rewrite Hf1.
  unfold mgo.EnsureIndex, mgo.round_trip.
  match goal with |- context [mgo.next_fault (mgo.Copy ?x)] =>
    change (mgo.next_fault (mgo.Copy x)) with (mgo.next_fault (mgo.round_trip m).2)
  end.
  rewrite Hf2.
  match goal with |- context [if existsb ?p ?l then _ else _] =>
    destruct (existsb p l) eqn:Hex end; cbn [fst snd].
  - repeat split; try done.
    apply existsb_exists in Hex as (i & Hin & Hi).
    apply bool_decide_eq_true_1 in Hi. subst i. by apply list_elem_of_In.
  - repeat split; try done.
    simpl. apply elem_of_app. right. by left.
Qed.

Lemma Init_on_an_answering_server_witness :
  testing.newTestEventStore.1
  = ({| Session := Some {| mgo.addr := testing.mongoAddress |};
        options := Some (Options.mk testing.mongoAddress "event-sourcing-test" "tests") |},
     None).
Proof.
  exact (proj1 (Init_on_an_answering_server {| Session := None; options := None |}
                  testing.test_options testing.fresh_server eq_refl eq_refl)).
Defined.

(** X15: [Init] ensures the index without repeating it: on a server that
    already has the index on [instanceid] for the collection of the options,
    the indexes after [Init] are the ones before, whatever the server
    answers. *)
Theorem Init_does_not_repeat_the_index store opts (m : Mongo) :
  (Options.DatabaseName (newOptions opts), Options.CollectionName (newOptions opts),
   ["instanceid"]) ∈ mgo.indexes m ->
  mgo.indexes (MongoEventStore.Init store opts m).2 = mgo.indexes m.
Proof.
  intros Hin. unfold MongoEventStore.Init, mgo.Dial, mgo.round_trip.
  destruct (mgo.next_fault m); [done|].
  unfold mgo.EnsureIndex, mgo.round_trip. cbn [fst snd].
  match goal with |- context [mgo.next_fault ?x] => destruct (mgo.next_fault x) end;
    [done|].
  match goal with |- context [if existsb ?p ?l then _ else _] =>
    destruct (existsb p l) eqn:Hex end; [done|].
  exfalso. apply not_true_iff_false in Hex. apply Hex.
  apply existsb_exists. eexists. split; [apply list_elem_of_In; exact Hin|].
  by apply bool_decide_eq_true_2.
Qed.

Lemma Init_does_not_repeat_the_index_witness :
  mgo.indexes (MongoEventStore.Init testing.store testing.test_options testing.server).2
  = mgo.indexes testing.server.
Proof.
  refine (Init_does_not_repeat_the_index testing.store testing.test_options
            testing.server _).
  vm_compute. by left.
Defined.

(** X16: when the dial fails, [Init] returns the driver's error and the
    store keeps its options but has no session; on a store without a
    session a [Create] or [Update] of a valid event, a [Get] and a [list]
    with an accepted destination panic and leave the server as it was. *)
Theorem operations_without_a_session store opts e id out f err (m m' : Mongo) :
  mgo.next_fault m = Some err ->
  bson.Valid (GetId e) && bson.Valid (GetInstanceId e) = true ->
  MongoEventStore.not_slice_ptr out = false ->
  let r := MongoEventStore.Init store opts m in
  r.1 = ({| Session := None; options := Some (newOptions opts) |}, Some (MgoError err))
  /\ MongoEventStore.Create r.1.1 e m' = (Panicked, m')
  /\ MongoEventStore.Update r.1.1 e m' = (Panicked, m')
  /\ MongoEventStore.Get r.1.1 id out m' = ((out, Panicked), m')
  /\ MongoEventStore.list r.1.1 out f m' = ((out, Panicked), m').
Proof.
  intros Hf Hv Hg r. subst r.
  unfold MongoEventStore.Init, mgo.Dial, mgo.round_trip. rewrite Hf. cbn [fst snd].
  repeat split.
  - unfold MongoEventStore.Create. by rewrite (validateEvent_valid e Hv).
  - unfold MongoEventStore.Update. by rewrite (validateEvent_valid e Hv).
  - unfold MongoEventStore.list. by rewrite Hg.
Qed.

Lemma operations_without_a_session_witness :
  MongoEventStore.Create
    (MongoEventStore.Init zero_store testing.test_options testing.unreachable).1.1
    testing.event1 testing.server
  = (Panicked, testing.server).
Proof.
  exact (proj1 (proj2 (operations_without_a_session zero_store testing.test_options
                         testing.event1 testing.id1
                         (IPtr (TSlice testing.testEvent) (Some (VSlice []))) None
                         (mgo.ErrBackend "connection refused")
                         testing.unreachable testing.server
                         eq_refl eq_refl eq_refl))).
Defined.

(** ** Which error means what *)

(** X18: on a store with its session and options, [Get] returns
    [ErrNotFound] exactly when the identifier is 12 bytes long and the
    driver reports not-found: the find was answered and no envelope has the
    identifier, or the round trip itself failed with the driver's not-found
    error.  An identifier that is not 12 bytes long never gives
    [ErrNotFound]. *)
Theorem Get_ErrNotFound_exactly_when store s o id out (m : Mongo) :
  Session store = Some s -> options store = Some o ->
  ((MongoEventStore.Get store id out m).1.2 = Returned (Some ErrNotFound)
   <-> bson.Valid id = true
       /\ ((mgo.next_fault m = None
            /\ existsb (mgo.has_id Id id) (mgo.collection (MongoEventStore.C o) m) = false)
           \/ mgo.next_fault m = Some mgo.ErrNotFound)).
Proof.
  intros Hs Ho. destruct (bson.Valid id) eqn:Hv.
  2:{ rewrite (Get_invalid_id store s o id out m Hs Ho Hv). simpl.
      split; [done|by intros [? _]]. }
  rewrite (Get_unfold store s o) by done.
  destruct (mgo.next_fault m) as [err|] eqn:Hf.
  - rewrite (One_fails _ _ _ (mgo.Copy m) err) by exact Hf.
    destruct err; simpl; split; try done; try (by split; [|right]);
      intros [_ [[? _]|?]]; done.
  - rewrite One_answers by exact Hf.
    change (mgo.collection (MongoEventStore.C o) (mgo.Copy m))
      with (mgo.collection (MongoEventStore.C o) m).
    destruct (existsb (mgo.has_id Id id) (mgo.collection (MongoEventStore.C o) m)) eqn:Hex.
    + split; [|by intros [_ [[_ ?]|?]]].
      intros H. exfalso.
      destruct (replace_first_spec id {| Id := ""; InstanceId := ""; Type_ := 0; Raw := None |}
                  _ Hex) as (before & old & after & Hc & Hb & Hold & _).
      rewrite Hc, (matching_by_id_app id before (old :: after) Hb) in H.
      destruct (matching_by_id_head id old after Hold) as (rest & Hrest).
      rewrite Hrest in H. unfold fromEvent in H.
      destruct (Raw old); [|done].
      destruct (bson.Raw_Unmarshal _ out) as [out' [e'|]]; done.
    + rewrite matching_by_id_none by done. split; [|done]. intros _. split; [done|by left].
Qed.

Lemma Get_ErrNotFound_exactly_when_witness :
  (MongoEventStore.Get testing.store "neverCreated" INil testing.server2).1.2
  = Returned (Some ErrNotFound).
Proof.
  apply (proj2 (Get_ErrNotFound_exactly_when testing.store
                  {| mgo.addr := testing.mongoAddress |}
                  (Options.mk testing.mongoAddress "event-sourcing-test" "tests")
                  "neverCreated" INil testing.server2 eq_refl eq_refl)).
  split; [reflexivity|]. left. by split.
Defined.

(** ** Reading back *)

Lemma reconstruct_spec st re x :
  (fromEvent (New st) re).1 = IPtr st (Some x) -> reconstruct st re = x.
Proof.
  unfold reconstruct. destruct (fromEvent (New st) re) as [out r]. simpl. by intros ->.
Qed.

Lemma Forall2_reconstruct st res elems :
  Forall2 (fun re x => (fromEvent (New st) re).1 = IPtr st (Some x)) res elems ->
  elems = map (reconstruct st) res.
Proof.
  induction 1 as [|re x res elems Hx _ IH]; simpl; [done|].
  by rewrite (reconstruct_spec st re x Hx), IH.
Qed.

(** The loop of [list] as a map over the envelopes. *)
Lemma list_loop_map st res old :
  forallb has_raw res = true ->
  MongoEventStore.list_loop st res (Some (VSlice old))
  = (Some (VSlice (old ++ map (reconstruct st) res)), Returned None).
Proof.
  intros Hraw. destruct (list_loop_appends st res old Hraw) as (elems & -> & Hall).
  by rewrite (Forall2_reconstruct st res elems Hall).
Qed.

Lemma forallb_filter {A} (P p : A -> bool) (l : list A) :
  forallb P l = true -> forallb P (List.filter p l) = true.
Proof.
  induction l as [|x l IH]; simpl; [done|].
  intros [Hx Hl]%andb_prop. destruct (p x); simpl; [rewrite Hx|]; auto.
Qed.

(** X19: with the server answering and every envelope carrying a payload,
    [List] appends the reconstruction of every envelope of the collection,
    and [ListFiltered] appends the reconstruction of exactly the envelopes
    its filter matches, in the same order: what [ListFiltered] returns is
    what [List] returns, filtered. *)
Theorem ListFiltered_is_List_filtered store s o st old p (m : Mongo) :
  Session store = Some s -> options store = Some o ->
  mgo.next_fault m = None ->
  forallb has_raw (mgo.collection (MongoEventStore.C o) m) = true ->
  (MongoEventStore.List store (IPtr (TSlice st) (Some (VSlice old))) m).1
  = (IPtr (TSlice st)
       (Some (VSlice (old ++ map (reconstruct st)
                                 (mgo.collection (MongoEventStore.C o) m)))),
     Returned None)
  /\ (MongoEventStore.ListFiltered store (IPtr (TSlice st) (Some (VSlice old)))
        (Some p) m).1
     = (IPtr (TSlice st)
          (Some (VSlice (old ++ map (reconstruct st)
                                    (List.filter p
                                       (mgo.collection (MongoEventStore.C o) m))))),
        Returned None).
Proof.
  intros Hs Ho Hf Hraw.
  unfold MongoEventStore.List, MongoEventStore.ListFiltered.
  rewrite !(list_answers store s o) by done. simpl mgo.matching.
  rewrite list_loop_map by done.
  by rewrite list_loop_map by (by apply forallb_filter).
Qed.

Lemma ListFiltered_is_List_filtered_witness :
  (MongoEventStore.ListFiltered testing.store
     (IPtr (TSlice testing.testEvent) (Some (VSlice [])))
     (Some (fun re => String.eqb (Id re) testing.id2)) testing.server2).1
  = (IPtr (TSlice testing.testEvent)
       (Some (VSlice [testing.testEvent_value testing.id2 testing.instance1 "This test 1"])),
     Returned None).
Proof.
  exact (proj2 (ListFiltered_is_List_filtered testing.store
                  {| mgo.addr := testing.mongoAddress |}
                  (Options.mk testing.mongoAddress "event-sourcing-test" "tests")
                  testing.testEvent [] (fun re => String.eqb (Id re) testing.id2)
                  testing.server2 eq_refl eq_refl eq_refl eq_refl)).
Defined.

(** X20: [Get] and [List] agree: with the server answering, [Get] of the
    12-byte identifier of a stored envelope (the first with that identifier) into a
    fresh variable of type [st] leaves in it what [List] appends for that
    envelope. *)
Theorem Get_agrees_with_List store s o st re before after (m : Mongo) :
  Session store = Some s -> options store = Some o ->
  bson.Valid (Id re) = true ->
  mgo.next_fault m = None ->
  mgo.collection (MongoEventStore.C o) m = before ++ re :: after ->
  existsb (mgo.has_id Id (Id re)) before = false ->
  has_raw re = true ->
  (MongoEventStore.Get store (Id re) (New st) m).1.1 = IPtr st (Some (reconstruct st re)).
Proof.
  intros Hs Ho Hv Hf Hc Hb Hraw.
  destruct (matching_by_id_head (Id re) re after eq_refl) as (rest & Hrest).
  rewrite (Get_found store s o (Id re) (New st) re rest m Hs Ho Hv Hf).
  - destruct (fromEvent_New st re Hraw) as (x & err & Hx).
    rewrite Hx. simpl. f_equal. f_equal. symmetry. apply reconstruct_spec. by rewrite Hx.
  - by rewrite Hc, matching_by_id_app.
Qed.

Lemma Get_agrees_with_List_witness :
  (MongoEventStore.Get testing.store testing.id2 (New testing.testEvent)
     testing.server2).1.1
  = IPtr testing.testEvent
      (Some (testing.testEvent_value testing.id2 testing.instance1 "This test 1")).
Proof.
  exact (Get_agrees_with_List testing.store
           {| mgo.addr := testing.mongoAddress |}
           (Options.mk testing.mongoAddress "event-sourcing-test" "tests")
           testing.testEvent
           {| Id := testing.id2; InstanceId := testing.instance1; Type_ := 101;
              Raw := Some (bson.BDoc [("id", bson.BOid testing.id2);
                                      ("instanceid", bson.BOid testing.instance1);
                                      ("string", bson.BStr "This test 1")]) |}
           [{| Id := testing.id1; InstanceId := testing.instance1; Type_ := 101;
               Raw := Some (bson.BDoc [("id", bson.BOid testing.id1);
                                       ("instanceid", bson.BOid testing.instance1);
                                       ("string", bson.BStr "This test 0")]) |}]
           [] testing.server2 eq_refl eq_refl eq_refl eq_refl eq_refl eq_refl eq_refl).
Defined.

(** What a [Create] that returned nil appended, for an event of a struct
    type: an envelope with a payload whose reconstruction is the event. *)
Lemma Create_appends_the_event store o e fts v (m m' : Mongo) :
  options store = Some o ->
  payload (self e) = Some (TStruct fts, v) -> has_type (TStruct fts) v = true ->
  MongoEventStore.Create store e m = (Returned None, m') ->
  exists re,
    mgo.collection (MongoEventStore.C o) m' = mgo.collection (MongoEventStore.C o) m ++ [re]
    /\ has_raw re = true
    /\ reconstruct (TStruct fts) re = v.
Proof.
  intros Ho Hp Hty Hc.
  apply Create_ok in Hc as (s & o' & re & _ & Ho' & _ & Hb & _ & _ & Hcoll).
  rewrite Ho in Ho'. injection Ho' as <-.
  apply buildEvent_ok in Hb as (d & Hm & ->).
  eexists. split; [exact Hcoll|]. split; [done|].
  apply reconstruct_spec. unfold New.
  by rewrite (fromEvent_Marshal (self e) fts v d).
Qed.

Lemma create_all_appends store o fts es :
  forall (m m' : Mongo),
    options store = Some o ->
    Forall (fun e => exists v, payload (self e) = Some (TStruct fts, v)
                               /\ has_type (TStruct fts) v = true) es ->
    create_all store es m = Some m' ->
    exists res,
      mgo.collection (MongoEventStore.C o) m'
      = mgo.collection (MongoEventStore.C o) m ++ res
      /\ forallb has_raw res = true
      /\ map (reconstruct (TStruct fts)) res = map event_value es.
Proof.
  induction es as [|e es IH]; intros m m' Ho Hall Hc; simpl in Hc.
  - injection Hc as <-. exists []. by rewrite app_nil_r.
  - apply Forall_cons_1 in Hall as [(v & Hp & Hty) Hall].
    destruct (MongoEventStore.Create store e m) as [[[err|]|] m1] eqn:Hcr; try done.
    destruct (Create_appends_the_event store o e fts v m m1 Ho Hp Hty Hcr)
      as (re & Hc1 & Hraw & Hre).
    destruct (IH m1 m' Ho Hall Hc) as (res & Hc2 & Hraws & Hres).
    exists (re :: res). rewrite Hc2, Hc1, <- app_assoc. simpl.
    rewrite Hraw, Hraws, Hre, Hres. unfold event_value. by rewrite Hp.
Qed.

(** X21: after events of one struct type were created one after another,
    each [Create] returning nil, an answered [List] into a slice of that
    type appends what it appended before for the envelopes already stored
    and then the values of the created events, in the order of their
    creation. *)
Theorem create_all_then_List store s o fts es old (m m' : Mongo) :
  Session store = Some s -> options store = Some o ->
  Forall (fun e => exists v, payload (self e) = Some (TStruct fts, v)
                             /\ has_type (TStruct fts) v = true) es ->
  forallb has_raw (mgo.collection (MongoEventStore.C o) m) = true ->
  create_all store es m = Some m' ->
  mgo.next_fault m' = None ->
  (MongoEventStore.List store (IPtr (TSlice (TStruct fts)) (Some (VSlice old))) m').1
  = (IPtr (TSlice (TStruct fts))
       (Some (VSlice (old
                      ++ map (reconstruct (TStruct fts))
                             (mgo.collection (MongoEventStore.C o) m)
                      ++ map event_value es))),
     Returned None).
Proof.
  intros Hs Ho Hall Hraw Hc Hf.
  destruct (create_all_appends store o fts es m m' Ho Hall Hc) as (res & Hcoll & Hraws & Hres).
  unfold MongoEventStore.List. rewrite (list_answers store s o) by done.
  simpl mgo.matching. rewrite Hcoll.
  rewrite list_loop_map by (by rewrite forallb_app, Hraw, Hraws).
  by rewrite map_app, Hres.
Qed.

Lemma create_all_then_List_witness :
  (MongoEventStore.List testing.store
     (IPtr (TSlice testing.testEvent) (Some (VSlice []))) testing.server2).1
  = (IPtr (TSlice testing.testEvent)
       (Some (VSlice [testing.testEvent_value testing.id1 testing.instance1 "This test 0";
                      testing.testEvent_value testing.id2 testing.instance1 "This test 1"])),
     Returned None).
Proof.
  refine (create_all_then_List testing.store
            {| mgo.addr := testing.mongoAddress |}
            (Options.mk testing.mongoAddress "event-sourcing-test" "tests")
            [("Id", TObjectId); ("InstanceId", TObjectId); ("String", TString)]
            [testing.event1; testing.event2] [] testing.server testing.server2
            eq_refl eq_refl _ eq_refl eq_refl eq_refl).
  repeat constructor; eexists; split; reflexivity.
Defined.

(** ** Events with another identifier *)

Lemma matching_by_id_other id re (c1 c2 : list rawEvent) :
  Id re <> id ->
  mgo.matching (MongoEventStore.matches_id id) (c1 ++ re :: c2)
  = mgo.matching (MongoEventStore.matches_id id) (c1 ++ c2).
Proof.
  intros Hne. unfold MongoEventStore.matches_id, mgo.matching, mgo.has_id.
  rewrite !List.filter_app. simpl.
  by apply String.eqb_neq in Hne as ->.
Qed.

Lemma buildEvent_Id e re : buildEvent e = (re, None) -> Id re = GetId e.
Proof. by intros (d & _ & ->)%buildEvent_ok. Qed.

(** X22: a [Create] or an [Update] of an event does not disturb the events
    with another identifier: with the server answering both finds, [Get] of
    another identifier returns after the write what it returned before it,
    however the write ended. *)
Theorem writes_leave_other_events store s o e id out (m : Mongo) :
  Session store = Some s -> options store = Some o ->
  id <> GetId e ->
  mgo.next_fault m = None ->
  (mgo.next_fault (MongoEventStore.Create store e m).2 = None ->
   (MongoEventStore.Get store id out (MongoEventStore.Create store e m).2).1
   = (MongoEventStore.Get store id out m).1)
  /\ (mgo.next_fault (MongoEventStore.Update store e m).2 = None ->
      (MongoEventStore.Get store id out (MongoEventStore.Update store e m).2).1
      = (MongoEventStore.Get store id out m).1).
Proof.
  intros Hs Ho Hne Hf.
  assert (forall m' : Mongo,
            mgo.next_fault m' = None ->
            mgo.matching (MongoEventStore.matches_id id) (mgo.collection (MongoEventStore.C o) m')
            = mgo.matching (MongoEventStore.matches_id id) (mgo.collection (MongoEventStore.C o) m) ->
            (MongoEventStore.Get store id out m').1 = (MongoEventStore.Get store id out m).1)
    as Hget.
  { intros m' Hf' Hm. destruct (bson.Valid id) eqn:Hv.
    - rewrite !(Get_unfold store s o) by done.
      rewrite !One_answers by done.
      change (mgo.collection (MongoEventStore.C o) (mgo.Copy m'))
        with (mgo.collection (MongoEventStore.C o) m').
      change (mgo.collection (MongoEventStore.C o) (mgo.Copy m))
        with (mgo.collection (MongoEventStore.C o) m).
      by rewrite Hm.
    - by rewrite !(Get_invalid_id store s o id out _ Hs Ho Hv). }
  split; intros Hf'; apply Hget; try done.
  - destruct (Create_collection store e (MongoEventStore.C o) m)
      as [->|(o' & re & _ & _ & _ & Hb & _ & ->)]; [done|].
    rewrite (matching_by_id_other id re _ []), app_nil_r; [done|].
    rewrite (buildEvent_Id e re Hb). congruence.
  - destruct (Update_collection_cases store e (MongoEventStore.C o) m)
      as [->|(o' & re & before & old & after & _ & _ & _ & Hb & -> & _ & Hold & ->)];
      [done|].
    rewrite !matching_by_id_other; try done.
    + rewrite Hold, (buildEvent_Id e re Hb). congruence.
    + rewrite (buildEvent_Id e re Hb). congruence.
Qed.

Lemma writes_leave_other_events_witness :
  (MongoEventStore.Get testing.store testing.id2 (New testing.testEvent)
     (MongoEventStore.Update testing.store testing.updated1 testing.server2).2).1
  = (MongoEventStore.Get testing.store testing.id2 (New testing.testEvent)
       testing.server2).1.
Proof.
  refine (proj2 (writes_leave_other_events testing.store
                   {| mgo.addr := testing.mongoAddress |}
                   (Options.mk testing.mongoAddress "event-sourcing-test" "tests")
                   testing.updated1 testing.id2 (New testing.testEvent) testing.server2
                   eq_refl eq_refl _ eq_refl) eq_refl).
  discriminate.
Defined.

(** ** Options *)

(** X23: options that set different fields can be given in either order:
    swapping two neighbours that set different fields does not change what
    [newOptions] builds. *)
Theorem options_of_different_fields_commute (l r : list setting) (s1 s2 : setting) :
  field_of s1 <> field_of s2 ->
  newOptions (map to_Option (l ++ s1 :: s2 :: r))
  = newOptions (map to_Option (l ++ s2 :: s1 :: r)).
Proof.
  intros Hne. unfold newOptions. rewrite !map_app, !fold_left_app. simpl.
  f_equal. by destruct s1, s2.
Qed.

Lemma options_of_different_fields_commute_witness :
  newOptions [Address testing.mongoAddress; DatabaseName "db"]
  = newOptions [DatabaseName "db"; Address testing.mongoAddress].
Proof.
  refine (options_of_different_fields_commute [] []
            (SetAddress testing.mongoAddress) (SetDatabaseName "db") _).
  discriminate.
Defined.

(** ** Destinations and envelopes the code does not guard against *)

(** X24: the guard of [list] accepts a nil pointer to a slice.  With the
    server answering, the call then returns nil when nothing matches and
    panics as soon as there is an envelope to append. *)
Theorem list_through_a_nil_pointer store s o st f (m : Mongo) :
  Session store = Some s -> options store = Some o ->
  mgo.next_fault m = None ->
  (MongoEventStore.list store (IPtr (TSlice st) None) f m).1
  = (IPtr (TSlice st) None,
     match mgo.matching f (mgo.collection (MongoEventStore.C o) m) with
     | [] => Returned None
     | _ :: _ => Panicked
     end).
Proof.
  intros Hs Ho Hf. rewrite (list_answers store s o) by done.
  destruct (mgo.matching f (mgo.collection (MongoEventStore.C o) m)) as [|re res];
    [done|].
  simpl. unfold MongoEventStore.list_step.
  by destruct (fromEvent (New st) re) as [event' [err|]].
Qed.

Lemma list_through_a_nil_pointer_witness :
  (MongoEventStore.list testing.store (IPtr (TSlice testing.testEvent) None) None
     testing.server2).1
  = (IPtr (TSlice testing.testEvent) None, Panicked).
Proof.
  exact (list_through_a_nil_pointer testing.store
           {| mgo.addr := testing.mongoAddress |}
           (Options.mk testing.mongoAddress "event-sourcing-test" "tests")
           testing.testEvent None testing.server2 eq_refl eq_refl eq_refl).
Defined.

Lemma list_loop_stops_without_payload st before re after :
  forall old,
    forallb has_raw before = true -> Raw re = None ->
    MongoEventStore.list_loop st (before ++ re :: after) (Some (VSlice old))
    = (Some (VSlice (old ++ map (reconstruct st) before)), Panicked).
Proof.
  induction before as [|x before IH]; intros old Hraw Hnil; simpl.
  - unfold MongoEventStore.list_step, fromEvent. rewrite Hnil. by rewrite app_nil_r.
  - simpl in Hraw. apply andb_prop in Hraw as [Hx Hraw].
    destruct (fromEvent_New st x Hx) as (v & err & Hv).
    unfold MongoEventStore.list_step. rewrite Hv.
    rewrite (IH (old ++ [v]) Hraw Hnil), <- app_assoc. simpl.
    by rewrite (reconstruct_spec st x v) by (by rewrite Hv).
Qed.

(** X25: an envelope without payload (its [Raw] is nil) is not guarded
    against: with the server answering, [Get] of its 12-byte identifier panics, with
    its session closed all the same, and [list] panics when it reaches the
    envelope, keeping what it appended before. *)
Theorem envelope_without_payload_panics store s o st re before after out old (m : Mongo) :
  Session store = Some s -> options store = Some o ->
  bson.Valid (Id re) = true ->
  mgo.next_fault m = None ->
  mgo.collection (MongoEventStore.C o) m = before ++ re :: after ->
  existsb (mgo.has_id Id (Id re)) before = false ->
  forallb has_raw before = true ->
  Raw re = None ->
  (MongoEventStore.Get store (Id re) out m).1 = (out, Panicked)
  /\ mgo.open_sessions (MongoEventStore.Get store (Id re) out m).2 = mgo.open_sessions m
  /\ (MongoEventStore.list store (IPtr (TSlice st) (Some (VSlice old))) None m).1
     = (IPtr (TSlice st) (Some (VSlice (old ++ map (reconstruct st) before))), Panicked).
Proof.
  intros Hs Ho Hv Hf Hc Hb Hraw Hnil. repeat split.
  - destruct (matching_by_id_head (Id re) re after eq_refl) as (rest & Hrest).
    rewrite (Get_found store s o (Id re) out re rest m Hs Ho Hv Hf).
    + unfold fromEvent. by rewrite Hnil.
    + by rewrite Hc, matching_by_id_app.
  - apply Get_sessions.
  - rewrite (list_answers store s o) by done. simpl mgo.matching. rewrite Hc.
    by rewrite list_loop_stops_without_payload.
Qed.

Lemma envelope_without_payload_panics_witness :
  (MongoEventStore.Get testing.store "foreign00001" INil
     (mgo.set_collection ("event-sourcing-test", "tests")
        [{| Id := "foreign00001"; InstanceId := testing.instance1; Type_ := 0;
            Raw := None |}] testing.server)).1
  = (INil, Panicked).
Proof.
  exact (proj1 (envelope_without_payload_panics testing.store
                  {| mgo.addr := testing.mongoAddress |}
                  (Options.mk testing.mongoAddress "event-sourcing-test" "tests")
                  testing.testEvent
                  {| Id := "foreign00001"; InstanceId := testing.instance1; Type_ := 0;
                     Raw := None |}
                  [] [] INil []
                  (mgo.set_collection ("event-sourcing-test", "tests")
                     [{| Id := "foreign00001"; InstanceId := testing.instance1; Type_ := 0;
                         Raw := None |}] testing.server)
                  eq_refl eq_refl eq_refl eq_refl eq_refl eq_refl eq_refl eq_refl)).
Defined.

(** ** The envelope *)

(** X26: for an event of a struct type, a [buildEvent] without error makes
    an envelope that carries what the three accessors return and from which
    [fromEvent] restores the value of the event into a variable of that
    type, whatever the variable held before. *)
Theorem buildEvent_then_fromEvent e fts v re cur :
  payload (self e) = Some (TStruct fts, v) ->
  has_type (TStruct fts) v = true ->
  buildEvent e = (re, None) ->
  Id re = GetId e /\ InstanceId re = GetInstanceId e /\ Type_ re = GetType e
  /\ fromEvent (IPtr (TStruct fts) (Some cur)) re
     = (IPtr (TStruct fts) (Some v), Returned None).
Proof.
  intros Hp Hty (d & Hm & ->)%buildEvent_ok. repeat split.
  by apply (fromEvent_Marshal (self e)).
Qed.

Lemma buildEvent_then_fromEvent_witness :
  fromEvent (IPtr testing.testEvent (Some (testing.testEvent_value "x" "y" "stale")))
    (buildEvent testing.event1).1
  = (IPtr testing.testEvent
       (Some (testing.testEvent_value testing.id1 testing.instance1 "This test 0")),
     Returned None).
Proof.
  exact (proj2 (proj2 (proj2
           (buildEvent_then_fromEvent testing.event1
              [("Id", TObjectId); ("InstanceId", TObjectId); ("String", TString)]
              (testing.testEvent_value testing.id1 testing.instance1 "This test 0")
              (buildEvent testing.event1).1
              (testing.testEvent_value "x" "y" "stale")
              eq_refl eq_refl eq_refl)))).
Defined.

(** X27: [Create] of a valid event that marshals, on an answering server
    whose collection does not hold its identifier, returns nil after one
    round trip and appends exactly one envelope at the end of the
    collection: the accessors' values and the marshalled document. *)
Theorem Create_of_a_fresh_event store s o e d (m : Mongo) :
  Session store = Some s -> options store = Some o ->
  bson.Valid (GetId e) && bson.Valid (GetInstanceId e) = true ->
  bson.Marshal (self e) = bson.Ok d ->
  mgo.next_fault m = None ->
  existsb (mgo.has_id Id (GetId e)) (mgo.collection (MongoEventStore.C o) m) = false ->
  (MongoEventStore.Create store e m).1 = Returned None
  /\ mgo.collection (MongoEventStore.C o) (MongoEventStore.Create store e m).2
     = mgo.collection (MongoEventStore.C o) m
       ++ [{| Id := GetId e; InstanceId := GetInstanceId e;
              Type_ := GetType e; Raw := Some (bson.BDoc d) |}]
  /\ mgo.round_trips (MongoEventStore.Create store e m).2 = S (mgo.round_trips m).
Proof.
  intros Hs Ho Hv Hm Hf Hfresh. rewrite (Create_unfold store s o e d) by done.
  cbv zeta. unfold mgo.Insert, mgo.round_trip.
  change (mgo.next_fault (mgo.Copy m)) with (mgo.next_fault m). rewrite Hf.
  match goal with |- context [if ?b then _ else _] =>
    change b with (existsb (mgo.has_id Id (GetId e))
                     (mgo.collection (MongoEventStore.C o) m)) end.
  rewrite Hfresh. cbn [fst snd]. repeat split.
  by rewrite collection_Close, collection_set.
Qed.

Lemma Create_of_a_fresh_event_witness :
  (MongoEventStore.Create testing.store testing.event1 testing.server).1 = Returned None.
Proof.
  exact (proj1 (Create_of_a_fresh_event testing.store
                  {| mgo.addr := testing.mongoAddress |}
                  (Options.mk testing.mongoAddress "event-sourcing-test" "tests")
                  testing.event1
                  [("id", bson.BOid testing.id1);
                   ("instanceid", bson.BOid testing.instance1);
                   ("string", bson.BStr "This test 0")]
                  testing.server eq_refl eq_refl eq_refl eq_refl eq_refl eq_refl)).
Defined.

(** * What [list] appends *)

(** ** The loop appends the decoded payloads *)

Lemma fromEvent_decoded st re :
  has_raw re = true ->
  exists err, fromEvent (New st) re = (IPtr st (Some (decoded st re)), Returned err).
Proof.
  unfold has_raw, fromEvent, decoded, New, bson.Raw_Unmarshal.
  destruct (Raw re) as [raw|]; [intros _|done].
  destruct (bson.readElemTo st (zero st) raw) as [v []]; by eexists.
Qed.

Lemma list_loop_decoded st res :
  forall old,
    forallb has_raw res = true ->
    MongoEventStore.list_loop st res (Some (VSlice old))
    = (Some (VSlice (old ++ map (decoded st) res)), Returned None).
Proof.
  induction res as [|re res IH]; intros old Hraw; simpl in *.
  - by rewrite app_nil_r.
  - apply andb_prop in Hraw as [Hre Hres].
    destruct (fromEvent_decoded st re Hre) as (err & Hx).
    unfold MongoEventStore.list_step. rewrite Hx.
    by rewrite (IH (old ++ [decoded st re]) Hres), <- app_assoc.
Qed.

(** However the loop ends, what the slice held stays in front. *)
Lemma list_loop_keeps st res :
  forall old,
    exists appended,
      (MongoEventStore.list_loop st res (Some (VSlice old))).1
      = Some (VSlice (old ++ appended)).
Proof.
  induction res as [|re res IH]; intros old; simpl.
  - exists []. by rewrite app_nil_r.
  - unfold MongoEventStore.list_step.
    destruct (fromEvent (New st) re) as [event' [err|]].
    + destruct event' as [| |t [x|]]; try (exists []; by rewrite app_nil_r).
      destruct (IH (old ++ [x])) as (appended & Happ).
      exists (x :: appended). by rewrite Happ, <- app_assoc.
    + exists []. by rewrite app_nil_r.
Qed.

(** ** A struct is decoded field by field, by name *)










(** ** [List] and [ListFiltered] on a collection *)




(** C10: a destination that already holds elements keeps them, in place
    and in front, however the call ends; and with the server answering and
    every matched envelope carrying a payload, what comes after them is
    exactly the decoded payloads of the matched envelopes, in the order of
    the query, so the final length is the prior length plus the number of
    envelopes retrieved. *)
Theorem list_appends_to_existing_elements store st old f (m : Mongo) :
  (exists appended,
     (MongoEventStore.list store (IPtr (TSlice st) (Some (VSlice old))) f m).1.1
     = IPtr (TSlice st) (Some (VSlice (old ++ appended))))
  /\ (forall s o,
        Session store = Some s -> options store = Some o ->
        mgo.next_fault m = None ->
        forallb has_raw (mgo.matching f (mgo.collection (MongoEventStore.C o) m)) = true ->
        exists final,
          (MongoEventStore.list store (IPtr (TSlice st) (Some (VSlice old))) f m).1
          = (IPtr (TSlice st) (Some (VSlice final)), Returned None)
          /\ take (length old) final = old
          /\ drop (length old) final
             = map (decoded st) (mgo.matching f (mgo.collection (MongoEventStore.C o) m))
          /\ length final
             = (length old
                + length (mgo.matching f (mgo.collection (MongoEventStore.C o) m)))%nat).
Proof.
  split.
  - unfold MongoEventStore.list.
    change (MongoEventStore.not_slice_ptr (IPtr (TSlice st) (Some (VSlice old))))
      with false. cbv iota.
    destruct (Session store); [|exists []; by rewrite app_nil_r].
    destruct (options store) as [o|]; [|exists []; by rewrite app_nil_r].
    destruct (mgo.All (MongoEventStore.C o) f (mgo.Copy m)) as [[res [err|]] m'];
      [exists []; by rewrite app_nil_r|].
    destruct (list_loop_keeps st res old) as (appended & Happ).
    exists appended.
    destruct (MongoEventStore.list_loop st res (Some (VSlice old))) as [cell r].
    simpl in *. by rewrite Happ.
  - intros s o Hs Ho Hf Hraw. eexists.
    rewrite (list_answers store s o) by done. rewrite list_loop_decoded by done.
    split; [reflexivity|]. repeat split.
    + by rewrite take_app_length.
    + by rewrite drop_app_length.
    + by rewrite length_app, length_map.
Qed.

Lemma list_appends_to_existing_elements_witness :
  (MongoEventStore.List testing.store
     (IPtr (TSlice testing.testEvent)
        (Some (VSlice [testing.testEvent_value "x" "y" "kept"]))) testing.server2).1
  = (IPtr (TSlice testing.testEvent)
       (Some (VSlice [testing.testEvent_value "x" "y" "kept";
                      testing.testEvent_value testing.id1 testing.instance1 "This test 0";
                      testing.testEvent_value testing.id2 testing.instance1 "This test 1"])),
     Returned None).
Proof.
  destruct (proj2 (list_appends_to_existing_elements testing.store testing.testEvent
                     [testing.testEvent_value "x" "y" "kept"] None testing.server2)
              {| mgo.addr := testing.mongoAddress |}
              (Options.mk testing.mongoAddress "event-sourcing-test" "tests")
              eq_refl eq_refl eq_refl eq_refl)
    as (final & Hl & Htake & Hdrop & Hlen).
  change (MongoEventStore.List testing.store
            (IPtr (TSlice testing.testEvent)
               (Some (VSlice [testing.testEvent_value "x" "y" "kept"]))) testing.server2)
    with (MongoEventStore.list testing.store
            (IPtr (TSlice testing.testEvent)
               (Some (VSlice [testing.testEvent_value "x" "y" "kept"]))) None
            testing.server2).
  rewrite Hl. rewrite <- (take_drop 1 final). simpl length in *.
  rewrite Htake, Hdrop. reflexivity.
Defined.
